(** * donkeycar/parts/controller.py : PS4 joystick decoder and controller

    A shallow embedding of [Joystick] (the raw event decoder with its
    capability tables) and of [JoystickController] (the state machine
    folded over the decoded observations), followed by the properties
    proved about them.

    Conventions of the embedding
    - Python [float] is IEEE binary64: Rocq's primitive [float], with the
      operations the interpreter performs in the same order.
    - Python [int] is [Z]; the fields read by [struct.unpack] carry their
      width in the decoding functions.
    - [dict] is [gmap], [list] is [list], [None]-or-value is [option].
    - A method that mutates [self] and may raise is a function from the
      object to the mutated object paired with [Ok v] or [Raise e].
    - [print] and [time.sleep] assign nothing; the exception [time.sleep]
      raises for a delay it refuses ends the iteration in
      [update_iteration]. *)

From Stdlib Require Import ZArith Lia Floats Bool List.
From Stdlib Require Import Strings.Byte Strings.Ascii Strings.String.
From stdpp Require Import gmap strings.

Local Set Warnings "-inexact-float".
Local Open Scope Z_scope.

(** ** Exceptions and results *)

Inductive exn : Set :=
| IndexError    (* list index out of range *)
| StructError   (* struct.error: buffer of the wrong size *)
| TypeError     (* arithmetic or ordering on None *)
| ValueError    (* time.sleep: a negative or NaN delay *)
| OverflowError. (* time.sleep: a delay beyond the range of the clock *)

Inductive result (A : Type) : Type :=
| Ok (a : A)
| Raise (e : exn).
Arguments Ok {A} a.
Arguments Raise {A} e.

Definition bind {A B : Type} (r : result A) (k : A -> result B) : result B :=
  match r with
  | Ok a => k a
  | Raise e => Raise e
  end.

Infix ">>-" := bind (at level 50, left associativity).

(** ** Python numbers *)

Module Py.

(** [float(z)] for an [int] small enough to be exact. *)
Definition float_of_int (z : Z) : float :=
  if z <? 0 then (- of_uint63 (Uint63.of_Z (- z)))%float
  else of_uint63 (Uint63.of_Z z).

(** [x != y] on floats (true on NaN). *)
Definition ne (x y : float) : bool := negb (x =? y)%float.

(** [min(a, b)]: the first argument unless the second is smaller. *)
Definition min (a b : float) : float := if (b <? a)%float then b else a.

(** [max(a, b)]: the first argument unless the second is greater. *)
Definition max (a b : float) : float := if (a <? b)%float then b else a.

(** The integer nearest to [a / b], ties to the even one ([0 < b]). *)
Definition div_half_even (a b : Z) : Z :=
  let q := a / b in
  let r := a mod b in
  match 2 * r ?= b with
  | Lt => q
  | Gt => q + 1
  | Eq => if Z.even q then q else q + 1
  end.

(** [round(x, 2)]: CPython rounds the exact binary value of [x] to two
    decimals, ties to even, and returns the double nearest to that
    decimal.  Non-finite values and zeros are returned as they are; a
    double of magnitude [2^46] or more has a unit in the last place
    above [0.01] and is its own result.  Below, [n <= 100 * 2^46 < 2^53]
    so [float(n)] is exact and the division rounds once. *)
Definition round2 (x : float) : float :=
  match Prim2SF x with
  | S754_finite s m e =>
      if -7 <? e then x
      else
        let n := div_half_even (100 * Z.pos m) (2 ^ (- e)) in
        let r := (float_of_int n / 100)%float in
        if s then (- r)%float else r
  | _ => x
  end.

End Py.

(** ** Joystick *)

(** [self.axis_names]: constants borrowed from linux/input.h. *)
Definition axis_names : gmap Z string :=
  list_to_map
    [ (0x00, "lx"); (0x01, "ly"); (0x02, "l2"); (0x03, "rx");
      (0x04, "ry"); (0x05, "r2"); (0x10, "dpadx"); (0x11, "dpady") ]%string.

(** [self.button_names]. *)
Definition button_names : gmap Z string :=
  list_to_map
    [ (0x130, "cross"); (0x131, "circle"); (0x133, "triangle");
      (0x134, "square"); (0x136, "l1"); (0x137, "r1"); (0x138, "l2");
      (0x139, "r2"); (0x13a, "share"); (0x13b, "options"); (0x13c, "ps");
      (0x13d, "thumbl"); (0x13e, "thumbr") ]%string.

(** ['%x' % n] and zero padding to a minimal width. *)
Definition hex_digit (d : Z) : ascii :=
  match String.get (Z.to_nat d) "0123456789abcdef" with
  | Some a => a
  | None => "0"%char
  end.

Fixpoint hex_go (fuel : nat) (n : Z) (acc : string) : string :=
  match fuel with
  | O => acc
  | S fuel' =>
      let acc' := String (hex_digit (n mod 16)) acc in
      if n / 16 =? 0 then acc' else hex_go fuel' (n / 16) acc'
  end.

Definition hex (n : Z) : string := hex_go (S (Z.to_nat (Z.log2 n))) n "".

Fixpoint zeros (k : nat) : string :=
  match k with
  | O => ""
  | S k' => String "0" (zeros k')
  end.

Definition zfill (width : nat) (s : string) : string :=
  (zeros (width - String.length s) +:+ s)%string.

(** ['unknown(0x%02x)' % axis] *)
Definition unknown_axis (axis : Z) : string :=
  ("unknown(0x" +:+ zfill 2 (hex axis) +:+ ")")%string.

(** ['unknown(0x%03x)' % btn] *)
Definition unknown_button (btn : Z) : string :=
  ("unknown(0x" +:+ zfill 3 (hex btn) +:+ ")")%string.

(** The object state [poll] reads and writes.  [jsdev], [dev_fn],
    [js_name], [num_axes] and [num_buttons] are not read after [init]. *)
Record Joystick : Type := mkJoystick {
  axis_states : gmap string float;
  button_states : gmap string Z;
  axis_map : list string;
  button_map : list string
}.

(** [Joystick.__init__] *)
Definition Joystick_new : Joystick :=
  {| axis_states := ∅; button_states := ∅; axis_map := []; button_map := [] |}.

(** What the four capability ioctls of [init] report. *)
Record DeviceReport : Type := mkDeviceReport {
  num_axes : Z;            (* JSIOCGAXES, one unsigned byte *)
  axmap : list Z;          (* JSIOCGAXMAP, 0x40 unsigned bytes *)
  num_buttons : Z;         (* JSIOCGBUTTONS, one unsigned byte *)
  btnmap : list Z          (* JSIOCGBTNMAP, 200 unsigned shorts *)
}.

(** Body of [for axis in buf[:self.num_axes]]. *)
Definition init_axis (js : Joystick) (axis : Z) : Joystick :=
  let axis_name := default (unknown_axis axis) (axis_names !! axis) in
  {| axis_states := <[axis_name := 0%float]> (axis_states js);
     button_states := button_states js;
     axis_map := axis_map js ++ [axis_name];
     button_map := button_map js |}.

(** Body of [for btn in buf[:self.num_buttons]]. *)
Definition init_button (js : Joystick) (btn : Z) : Joystick :=
  let btn_name := default (unknown_button btn) (button_names !! btn) in
  {| axis_states := axis_states js;
     button_states := <[btn_name := 0]> (button_states js);
     axis_map := axis_map js;
     button_map := button_map js ++ [btn_name] |}.

(** [Joystick.init], from the device's answers. *)
Definition init (js : Joystick) (rep : DeviceReport) : Joystick :=
  let js1 := fold_left init_axis (take (Z.to_nat (num_axes rep)) (axmap rep)) js in
  fold_left init_button (take (Z.to_nat (num_buttons rep)) (btnmap rep)) js1.

(** [struct.unpack('IhBB', evbuf)], native little-endian layout:
    u32 time, i16 value, u8 type, u8 number. *)
Definition le_uint (bs : list byte) : Z :=
  fold_right (fun b acc => Z.of_N (Byte.to_N b) + 256 * acc) 0 bs.

Definition to_int16 (u : Z) : Z := if u <? 32768 then u else u - 65536.

Definition unpack_IhBB (evbuf : list byte) : result (Z * Z * Z * Z) :=
  match evbuf with
  | [b0; b1; b2; b3; b4; b5; b6; b7] =>
      Ok (le_uint [b0; b1; b2; b3], to_int16 (le_uint [b4; b5]),
          le_uint [b6], le_uint [b7])
  | _ => Raise StructError
  end.

(** The tuple [button, button_state, axis, axis_val] returned by [poll]. *)
Record Observation : Type := mkObservation {
  button : option string;
  button_state : option Z;
  axis : option string;
  axis_val : option float
}.

Definition no_observation : Observation :=
  {| button := None; button_state := None; axis := None; axis_val := None |}.

(** [lst[number]] for [number >= 0]. *)
Definition list_index {A : Type} (l : list A) (number : Z) : result A :=
  match l !! Z.to_nat number with
  | Some x => Ok x
  | None => Raise IndexError
  end.

(** Truth value of a [str]. *)
Definition truthy (s : string) : bool := negb (String.eqb s "").

(** [if typev & 0x01: ...] of [poll]. *)
Definition poll_button (js : Joystick) (value typev number : Z)
  : Joystick * result (option string * option Z) :=
  if Z.land typev 0x01 =? 0 then (js, Ok (None, None))
  else
    match list_index (button_map js) number with
    | Raise e => (js, Raise e)
    | Ok btn =>
        if truthy btn then
          ({| axis_states := axis_states js;
              button_states := <[btn := value]> (button_states js);
              axis_map := axis_map js;
              button_map := button_map js |},
           Ok (Some btn, Some value))
        else (js, Ok (Some btn, None))
    end.

(** [if typev & 0x02: ...] of [poll]. *)
Definition poll_axis (js : Joystick) (value typev number : Z)
  : Joystick * result (option string * option float) :=
  if Z.land typev 0x02 =? 0 then (js, Ok (None, None))
  else
    match list_index (axis_map js) number with
    | Raise e => (js, Raise e)
    | Ok ax =>
        if truthy ax then
          let fvalue := (Py.float_of_int value / 32767)%float in
          ({| axis_states := <[ax := fvalue]> (axis_states js);
              button_states := button_states js;
              axis_map := axis_map js;
              button_map := button_map js |},
           Ok (Some ax, Some fvalue))
        else (js, Ok (Some ax, None))
    end.

(** [Joystick.poll], given the bytes [self.jsdev.read(8)] returned. *)
Definition poll (js : Joystick) (evbuf : list byte)
  : Joystick * result Observation :=
  match evbuf with
  | [] => (js, Ok no_observation)
  | _ =>
      match unpack_IhBB evbuf with
      | Raise e => (js, Raise e)
      | Ok (tval, value, typev, number) =>
          if negb (Z.land typev 0x80 =? 0) then (js, Ok no_observation)
          else
            match poll_button js value typev number with
            | (js1, Raise e) => (js1, Raise e)
            | (js1, Ok (b, bs)) =>
                match poll_axis js1 value typev number with
                | (js2, Raise e) => (js2, Raise e)
                | (js2, Ok (a, av)) =>
                    (js2, Ok {| button := b; button_state := bs;
                                axis := a; axis_val := av |})
                end
            end
      end
  end.

(** ** JoystickController *)

(** [self.mode] only ever holds one of three string constants. *)
Inductive Mode : Set :=
| user          (* 'user': human steering and throttle *)
| local_angle   (* 'local_angle': ai steering, human throttle *)
| local.        (* 'local': ai steering, ai throttle *)

Global Instance Mode_eq_dec : EqDecision Mode.
Proof. solve_decision. Defined.

(** The attributes set by [JoystickController.__init__]; [dev_fn] is only
    handed to [Joystick], and [js] is the [Joystick] carried next to the
    controller in [update_step]. *)
Record JoystickController : Type := mkJoystickController {
  angle : float;
  throttle : float;
  mode : Mode;
  poll_delay : float;
  running : bool;
  max_throttle : float;
  steering_axis : string;
  throttle_axis : string;
  steering_scale : float;
  throttle_scale : float;
  recording : bool;
  constant_throttle : bool;
  auto_record_on_throttle : bool
}.

(** [JoystickController.__init__] *)
Definition JoystickController_new
    (poll_delay max_throttle : float) (steering_axis throttle_axis : string)
    (steering_scale throttle_scale : float) (auto_record_on_throttle : bool)
  : JoystickController :=
  {| angle := 0; throttle := 0; mode := user; poll_delay := poll_delay;
     running := true; max_throttle := max_throttle;
     steering_axis := steering_axis; throttle_axis := throttle_axis;
     steering_scale := steering_scale; throttle_scale := throttle_scale;
     recording := false; constant_throttle := false;
     auto_record_on_throttle := auto_record_on_throttle |}.

(** The constructor's default arguments. *)
Definition JoystickController_default : JoystickController :=
  JoystickController_new 0 1 "rx" "ly" 1 (-1) true.

(** Attribute assignments. *)
Definition set_angle (v : float) (c : JoystickController) :=
  mkJoystickController v (throttle c) (mode c) (poll_delay c) (running c)
    (max_throttle c) (steering_axis c) (throttle_axis c) (steering_scale c)
    (throttle_scale c) (recording c) (constant_throttle c)
    (auto_record_on_throttle c).

Definition set_throttle (v : float) (c : JoystickController) :=
  mkJoystickController (angle c) v (mode c) (poll_delay c) (running c)
    (max_throttle c) (steering_axis c) (throttle_axis c) (steering_scale c)
    (throttle_scale c) (recording c) (constant_throttle c)
    (auto_record_on_throttle c).

Definition set_mode (v : Mode) (c : JoystickController) :=
  mkJoystickController (angle c) (throttle c) v (poll_delay c) (running c)
    (max_throttle c) (steering_axis c) (throttle_axis c) (steering_scale c)
    (throttle_scale c) (recording c) (constant_throttle c)
    (auto_record_on_throttle c).

Definition set_max_throttle (v : float) (c : JoystickController) :=
  mkJoystickController (angle c) (throttle c) (mode c) (poll_delay c)
    (running c) v (steering_axis c) (throttle_axis c) (steering_scale c)
    (throttle_scale c) (recording c) (constant_throttle c)
    (auto_record_on_throttle c).

Definition set_steering_scale (v : float) (c : JoystickController) :=
  mkJoystickController (angle c) (throttle c) (mode c) (poll_delay c)
    (running c) (max_throttle c) (steering_axis c) (throttle_axis c) v
    (throttle_scale c) (recording c) (constant_throttle c)
    (auto_record_on_throttle c).

Definition set_throttle_scale (v : float) (c : JoystickController) :=
  mkJoystickController (angle c) (throttle c) (mode c) (poll_delay c)
    (running c) (max_throttle c) (steering_axis c) (throttle_axis c)
    (steering_scale c) v (recording c) (constant_throttle c)
    (auto_record_on_throttle c).

Definition set_recording (v : bool) (c : JoystickController) :=
  mkJoystickController (angle c) (throttle c) (mode c) (poll_delay c)
    (running c) (max_throttle c) (steering_axis c) (throttle_axis c)
    (steering_scale c) (throttle_scale c) v (constant_throttle c)
    (auto_record_on_throttle c).

Definition set_constant_throttle (v : bool) (c : JoystickController) :=
  mkJoystickController (angle c) (throttle c) (mode c) (poll_delay c)
    (running c) (max_throttle c) (steering_axis c) (throttle_axis c)
    (steering_scale c) (throttle_scale c) (recording c) v
    (auto_record_on_throttle c).

(** [self.throttle != 0.0 and self.mode == 'user'] *)
Definition should_record (c : JoystickController) : bool :=
  Py.ne (throttle c) 0 && bool_decide (mode c = user).

(** [JoystickController.on_throttle_changes] *)
Definition on_throttle_changes (c : JoystickController) : JoystickController :=
  if auto_record_on_throttle c then set_recording (should_record c) c else c.

(** [axis == name]: false when [poll] returned [None]. *)
Definition axis_is (obs : Observation) (name : string) : bool :=
  bool_decide (axis obs = Some name).

(** [button == name and button_state == 1] *)
Definition pressed (obs : Observation) (name : string) : bool :=
  bool_decide (button obs = Some name) &&
  bool_decide (button_state obs = Some 1).

(** The [if] statements of the polling loop of [update], in order.  Each
    takes the tuple returned by [poll] and the controller. *)
Section update_blocks.
Variable obs : Observation.

(** [if axis == self.steering_axis] *)
Definition steering_moved (c : JoystickController) : result JoystickController :=
  if axis_is obs (steering_axis c) then
    match axis_val obs with
    | Some v => Ok (set_angle (steering_scale c * v)%float c)
    | None => Raise TypeError
    end
  else Ok c.

(** [if axis == self.throttle_axis] *)
Definition throttle_moved (c : JoystickController) : result JoystickController :=
  if axis_is obs (throttle_axis c) then
    match axis_val obs with
    | Some v =>
        Ok (on_throttle_changes
              (set_throttle (throttle_scale c * v * max_throttle c)%float c))
    | None => Raise TypeError
    end
  else Ok c.

(** [if axis == 'dpadx'] *)
Definition dpadx_moved (c : JoystickController) : result JoystickController :=
  if axis_is obs "dpadx" then
    match axis_val obs with
    | Some v =>
        if Py.ne v 0 then
          if (0 <? v)%float then
            Ok (set_steering_scale
                  (Py.round2 (Py.min 1 (steering_scale c + 0.05)%float)) c)
          else
            Ok (set_steering_scale
                  (Py.round2 (Py.max 0 (steering_scale c - 0.05)%float)) c)
        else Ok c
    | None => Raise TypeError
    end
  else Ok c.

(** [if axis == 'dpady'] *)
Definition dpady_moved (c : JoystickController) : result JoystickController :=
  if axis_is obs "dpady" then
    match axis_val obs with
    | Some v =>
        if Py.ne v 0 then
          if (v <? 0)%float then
            Ok (set_throttle_scale
                  (Py.round2 (Py.max (-1) (throttle_scale c - 0.05)%float)) c)
          else
            Ok (set_throttle_scale
                  (Py.round2 (Py.min 0 (throttle_scale c + 0.05)%float)) c)
        else Ok c
    | None => Raise TypeError
    end
  else Ok c.

(** [if button == 'option' and button_state == 1] *)
Definition option_pressed (c : JoystickController) : result JoystickController :=
  if pressed obs "option" then
    Ok (set_mode match mode c with
                 | user => local_angle
                 | local_angle => local
                 | local => user
                 end c)
  else Ok c.

(** [if button == 'circle' and button_state == 1] *)
Definition circle_pressed (c : JoystickController) : result JoystickController :=
  if pressed obs "circle" then
    if auto_record_on_throttle c then Ok c
    else if recording c then Ok (set_recording false c)
    else Ok (set_recording true c)
  else Ok c.

(** The cascade shared by the two max-throttle buttons. *)
Definition max_throttle_changed (c : JoystickController) : JoystickController :=
  if constant_throttle c
  then on_throttle_changes (set_throttle (max_throttle c) c)
  else c.

(** [if button == 'r1' and button_state == 1] *)
Definition r1_pressed (c : JoystickController) : result JoystickController :=
  if pressed obs "r1" then
    Ok (max_throttle_changed
          (set_max_throttle
             (Py.round2 (Py.min 1 (max_throttle c + 0.01)%float)) c))
  else Ok c.

(** [if button == 'l1' and button_state == 1] *)
Definition l1_pressed (c : JoystickController) : result JoystickController :=
  if pressed obs "l1" then
    Ok (max_throttle_changed
          (set_max_throttle
             (Py.round2 (Py.max 0 (max_throttle c - 0.01)%float)) c))
  else Ok c.

(** [if button == 'r2' and button_state == 1] *)
Definition r2_pressed (c : JoystickController) : result JoystickController :=
  if pressed obs "r2" then
    Ok (set_throttle_scale
          (Py.round2 (Py.min 0 (throttle_scale c + 0.05)%float)) c)
  else Ok c.

(** [if button == 'l2' and button_state == 1] *)
Definition l2_pressed (c : JoystickController) : result JoystickController :=
  if pressed obs "l2" then
    Ok (set_throttle_scale
          (Py.round2 (Py.max (-1) (throttle_scale c - 0.05)%float)) c)
  else Ok c.

(** [if button == 'triangle' and button_state == 1]; the literal [0]
    assigned to [throttle] is the number [0.0]. *)
Definition triangle_pressed (c : JoystickController) : result JoystickController :=
  if pressed obs "triangle" then
    if constant_throttle c then
      Ok (on_throttle_changes (set_throttle 0 (set_constant_throttle false c)))
    else
      Ok (on_throttle_changes
            (set_throttle (max_throttle c) (set_constant_throttle true c)))
  else Ok c.

(** One pass through the body of [while self.running], after [poll]. *)
Definition apply (c : JoystickController) : result JoystickController :=
  Ok c >>- steering_moved >>- throttle_moved >>- dpadx_moved >>- dpady_moved
       >>- option_pressed >>- circle_pressed >>- r1_pressed >>- l1_pressed
       >>- r2_pressed >>- l2_pressed >>- triangle_pressed.

End update_blocks.

(** The state one iteration of [while self.running] computes: poll, then
    the [if] statements of the body; an exception of either leaves the
    loop.  The statement that ends the iteration,
    [time.sleep(self.poll_delay)], assigns nothing; its outcome is added
    in [update_iteration] below. *)
Definition update_step (s : JoystickController * Joystick) (evbuf : list byte)
  : result (JoystickController * Joystick) :=
  match poll (snd s) evbuf with
  | (js', Ok obs) =>
      match apply obs (fst s) with
      | Ok c' => Ok (c', js')
      | Raise e => Raise e
      end
  | (_, Raise e) => Raise e
  end.

(** The states of the polling loop of [update] over the successive
    results of [self.jsdev.read(8)], once the joystick is online, every
    [time.sleep] returning; [update_loop] below is the loop with the
    sleeps. *)
Fixpoint update (s : JoystickController * Joystick) (reads : list (list byte))
  : result (JoystickController * Joystick) :=
  match reads with
  | [] => Ok s
  | evbuf :: rest =>
      if running (fst s) then
        match update_step s evbuf with
        | Ok s' => update s' rest
        | Raise e => Raise e
        end
      else Ok s
  end.

(** One whole iteration: the state as in [update_step], then
    [time.sleep(self.poll_delay)].  The library call is given as [sleep]:
    what [time.sleep] does with its argument, to return or to raise
    (CPython raises ValueError for a negative or NaN delay and
    OverflowError for one beyond the range of its clock). *)
Definition update_iteration (sleep : float -> result unit)
    (s : JoystickController * Joystick) (evbuf : list byte)
  : result (JoystickController * Joystick) :=
  update_step s evbuf >>- fun s' =>
  sleep (poll_delay (fst s')) >>- fun _ => Ok s'.

(** The polling loop of [update] with its sleeps. *)
Fixpoint update_loop (sleep : float -> result unit)
    (s : JoystickController * Joystick) (reads : list (list byte))
  : result (JoystickController * Joystick) :=
  match reads with
  | [] => Ok s
  | evbuf :: rest =>
      if running (fst s) then
        match update_iteration sleep s evbuf with
        | Ok s' => update_loop sleep s' rest
        | Raise e => Raise e
        end
      else Ok s
  end.

(** The body applied to a sequence of observations. *)
Fixpoint apply_all (c : JoystickController) (obss : list Observation)
  : result JoystickController :=
  match obss with
  | [] => Ok c
  | obs :: rest =>
      match apply obs c with
      | Ok c' => apply_all c' rest
      | Raise e => Raise e
      end
  end.

(** [JoystickController.run_threaded] *)
Definition run_threaded (c : JoystickController) : float * float * Mode * bool :=
  (angle c, throttle c, mode c, recording c).


(** ** Definitions used to state the properties *)

(** The two shapes of tuple [poll] returns for a single event. *)
Definition button_changed (name : string) (state : Z) : Observation :=
  {| button := Some name; button_state := Some state;
     axis := None; axis_val := None |}.

Definition axis_moved (name : string) (value : float) : Observation :=
  {| button := None; button_state := None;
     axis := Some name; axis_val := Some value |}.

(** An axis name comes with its value, as in every tuple [poll] returns
    for a non-empty axis name. *)
Definition axis_has_value (obs : Observation) : Prop :=
  axis obs = None \/ exists v, axis_val obs = Some v.

(** The blocks of the loop body, in program order. *)
Definition blocks : list (Observation -> JoystickController -> result JoystickController) :=
  [ steering_moved; throttle_moved; dpadx_moved; dpady_moved; option_pressed;
    circle_pressed; r1_pressed; l1_pressed; r2_pressed; l2_pressed;
    triangle_pressed ].

Definition run_blocks (obs : Observation)
    (bs : list (Observation -> JoystickController -> result JoystickController))
    (c : JoystickController) : result JoystickController :=
  fold_left (fun r blk => r >>- blk obs) bs (Ok c).

(** The attributes that are configuration: no block assigns them. *)
Definition same_config (c c' : JoystickController) : Prop :=
  steering_axis c' = steering_axis c /\
  throttle_axis c' = throttle_axis c /\
  auto_record_on_throttle c' = auto_record_on_throttle c /\
  poll_delay c' = poll_delay c /\
  running c' = running c.

(** What a block may do to [recording] when the rule is enabled: leave it
    with the throttle, or set it by the rule. *)
Definition record_rel (c c' : JoystickController) : Prop :=
  auto_record_on_throttle c = true ->
  auto_record_on_throttle c' = true /\ mode c' = mode c /\
  ((throttle c' = throttle c /\ recording c' = recording c) \/
   recording c' = should_record c').

(** The cycle written in the ['option'] block. *)
Definition next_mode (m : Mode) : Mode :=
  match m with
  | user => local_angle
  | local_angle => local
  | local => user
  end.

Definition triangle_press : Observation := button_changed "triangle" 1.

(** A pad reporting the eight axes and thirteen buttons the tables
    name, in the order of the tables; the buffers keep their full size. *)
Definition ps4_report : DeviceReport :=
  {| num_axes := 8;
     axmap := [0x00; 0x01; 0x02; 0x03; 0x04; 0x05; 0x10; 0x11]
                ++ replicate (0x40 - 8) 0;
     num_buttons := 13;
     btnmap := [0x130; 0x131; 0x133; 0x134; 0x136; 0x137; 0x138; 0x139;
                0x13a; 0x13b; 0x13c; 0x13d; 0x13e] ++ replicate (200 - 13) 0 |}.

Definition ps4 : Joystick := init Joystick_new ps4_report.

(** Event records: time 0, then value, type and number. *)
Definition options_down : list byte :=     (* button 9 ('options') pressed *)
  [x00; x00; x00; x00; x01; x00; x01; x09]%byte.

Definition button_200_down : list byte :=  (* button 200 pressed *)
  [x00; x00; x00; x00; x01; x00; x01; xc8]%byte.

Definition ly_full : list byte :=          (* axis 1 ('ly') at 32767 *)
  [x00; x00; x00; x00; xff; x7f; x02; x01]%byte.

Definition rx_lowest : list byte :=        (* axis 3 ('rx') at -32768 *)
  [x00; x00; x00; x00; x00; x80; x02; x03]%byte.

(** Successive calls of [poll] up to the first that raises, with the
    tuples they returned. *)
Fixpoint polls (js : Joystick) (reads : list (list byte))
  : Joystick * result (list Observation) :=
  match reads with
  | [] => (js, Ok [])
  | evbuf :: rest =>
      match poll js evbuf with
      | (js1, Ok obs) =>
          match polls js1 rest with
          | (js2, Ok obss) => (js2, Ok (obs :: obss))
          | (js2, Raise e) => (js2, Raise e)
          end
      | (js1, Raise e) => (js1, Raise e)
      end
  end.



Definition triangle_down : list byte :=    (* button 2 ('triangle') pressed *)
  [x00; x00; x00; x00; x01; x00; x01; x02]%byte.




(** Values of magnitude at most one, by sign. *)
Definition pos_le1 (f : spec_float) : Prop :=
  match f with
  | S754_zero _ => True
  | S754_finite false m e => e <= 0 /\ Z.pos m <= 2 ^ (- e)
  | _ => False
  end.

Definition neg_le1 (f : spec_float) : Prop :=
  match f with
  | S754_zero _ => True
  | S754_finite true m e => e <= 0 /\ Z.pos m <= 2 ^ (- e)
  | _ => False
  end.

Definition signed_le1 (s : bool) (f : spec_float) : Prop :=
  if s then neg_le1 f else pos_le1 f.

(** The sign of a result of rounding, NaN having none. *)
Definition sign_is (s : bool) (f : spec_float) : Prop :=
  match f with
  | S754_zero s' | S754_infinity s' | S754_finite s' _ _ => s' = s
  | S754_nan => True
  end.


(** [lo <= x <= hi] on floats. *)
Definition in_range (lo hi x : float) : bool := (lo <=? x)%float && (x <=? hi)%float.

(** A float that [round(x, 2)] returns unchanged. *)
Definition two_decimals (x : float) : Prop := Py.round2 x = x.

(** The three adjustable scales within the ranges their updates clamp to. *)
Definition scales_in_range (c : JoystickController) : Prop :=
  in_range 0 1 (steering_scale c) = true /\
  in_range (-1) 0 (throttle_scale c) = true /\
  in_range 0 1 (max_throttle c) = true.

(** The double nearest to [n / 100], with a sign. *)
Definition hundredth (neg : bool) (n : Z) : float :=
  let r := (Py.float_of_int n / 100)%float in if neg then (- r)%float else r.

(** What is checked of each of the hundredths from 0 to 100. *)
Definition grid_check (n : Z) : bool :=
  in_range 0 1 (hundredth false n) &&
  PrimFloat.Leibniz.eqb (Py.round2 (hundredth false n)) (hundredth false n) &&
  in_range (-1) 0 (hundredth true n) &&
  PrimFloat.Leibniz.eqb (Py.round2 (hundredth true n)) (hundredth true n).

(** The three scales by index. *)
Inductive Scale : Set := SteeringScale | ThrottleScale | MaxThrottle.

Definition scale_of (k : Scale) (c : JoystickController) : float :=
  match k with
  | SteeringScale => steering_scale c
  | ThrottleScale => throttle_scale c
  | MaxThrottle => max_throttle c
  end.

(** [axis == name] with a value that [!= 0]. *)
Definition axis_off_center (obs : Observation) (name : string) : bool :=
  axis_is obs name &&
  match axis_val obs with
  | Some v => Py.ne v 0
  | None => false
  end.

(** The observations on which the body assigns a scale. *)
Definition adjusts (k : Scale) (obs : Observation) : bool :=
  match k with
  | SteeringScale => axis_off_center obs "dpadx"
  | ThrottleScale =>
      axis_off_center obs "dpady" || pressed obs "r2" || pressed obs "l2"
  | MaxThrottle => pressed obs "r1" || pressed obs "l1"
  end.

(** What a block may do to the three scales: keep each in its range, and
    leave it as it was or assign it a result of [round(_, 2)]. *)
Definition scale_rel (c c' : JoystickController) : Prop :=
  scales_in_range c ->
  scales_in_range c' /\
  forall k, scale_of k c' = scale_of k c \/ two_decimals (scale_of k c').

(** D-pad left, d-pad down, then 'r1', 'l1', 'l2' and 'r2' pressed. *)
Definition sample_adjustments : list Observation :=
  [ axis_moved "dpadx" (-1); axis_moved "dpady" 1; button_changed "r1" 1;
    button_changed "l1" 1; button_changed "l2" 1; button_changed "r2" 1 ].

(** [struct.pack('IhBB', tval, value, typev, number)], the record the
    driver writes for an event. *)
Definition byte_of_Z (z : Z) : byte :=
  match Byte.of_N (Z.to_N (z mod 256)) with
  | Some b => b
  | None => x00
  end.

Definition pack_IhBB (tval value typev number : Z) : list byte :=
  [ byte_of_Z tval; byte_of_Z (tval / 256); byte_of_Z (tval / 65536);
    byte_of_Z (tval / 16777216);
    byte_of_Z value; byte_of_Z (value / 256);
    byte_of_Z typev; byte_of_Z number ].





(** An instance of [time.sleep]: it returns for the delays from 0.0 on and
    raises ValueError for the others, the negative ones and NaN. *)
Definition sleep_from_zero (secs : float) : result unit :=
  if (0 <=? secs)%float then Ok tt else Raise ValueError.


(** ** The rest of the two classes *)

(** What [open(self.dev_fn, 'rb')] finds: the device with the answers it
    gives to [init], or no such file. *)
Inductive Device : Type :=
| Present (rep : DeviceReport)
| Absent.                        (* FileNotFoundError *)

(** [JoystickController.init_js]: [self.js] after the call; the method
    returns whether it is not [None]. *)
Definition init_js (dev : Device) : option Joystick :=
  match dev with
  | Present rep => Some (init Joystick_new rep)
  | Absent => None
  end.

(** [while self.running and not self.init_js(): time.sleep(5)] over the
    successive states of the device: [self.js] when the loop is left, and
    no result when the attempts listed are used up with the loop still
    waiting. *)
Fixpoint wait_for_js (c : JoystickController) (devs : list Device)
  : option (option Joystick) :=
  if running c then
    match devs with
    | [] => None
    | dev :: rest =>
        match init_js dev with
        | Some js => Some (Some js)
        | None => wait_for_js c rest
        end
    end
  else Some None.

Definition set_running (v : bool) (c : JoystickController) :=
  mkJoystickController (angle c) (throttle c) (mode c) (poll_delay c) v
    (max_throttle c) (steering_axis c) (throttle_axis c) (steering_scale c)
    (throttle_scale c) (recording c) (constant_throttle c)
    (auto_record_on_throttle c).

(** [JoystickController.shutdown] *)
Definition shutdown (c : JoystickController) : JoystickController :=
  set_running false c.

(** The name [init] enters for a hardware id. *)
Definition axis_name (axis : Z) : string :=
  default (unknown_axis axis) (axis_names !! axis).

Definition button_name (btn : Z) : string :=
  default (unknown_button btn) (button_names !! btn).

(** Reading back the id written in a placeholder name ['unknown(0x..)']. *)
Definition hex_digit_value (a : ascii) : Z :=
  let n := Z.of_N (N_of_ascii a) in
  if n <? 58 then n - 48 else n - 87.

Fixpoint parse_hex (s : string) (acc : Z) : Z :=
  match s with
  | EmptyString => acc
  | String a rest =>
      if Ascii.eqb a ")" then acc else parse_hex rest (16 * acc + hex_digit_value a)
  end.

Fixpoint string_drop (n : nat) (s : string) : string :=
  match n, s with
  | S n', String _ rest => string_drop n' rest
  | _, _ => s
  end.

Definition placeholder_id (name : string) : Z := parse_hex (string_drop 10 name) 0.

(** The caches hold exactly the names of the tables. *)
Definition caches_match_tables (js : Joystick) : Prop :=
  dom (axis_states js) = list_to_set (axis_map js) /\
  dom (button_states js) = list_to_set (button_map js).

(** The indices a record uses are within the tables. *)
Definition indices_in_tables (js : Joystick) (typev number : Z) : bool :=
  ((Z.land typev 0x01 =? 0) || (number <? Z.of_nat (length (button_map js)))) &&
  ((Z.land typev 0x02 =? 0) || (number <? Z.of_nat (length (axis_map js)))).

(** A check of every integer from [from] on, [fuel] of them. *)
Fixpoint all_from (fuel : nat) (from : Z) (p : Z -> bool) : bool :=
  match fuel with
  | O => true
  | S fuel' => p from && all_from fuel' (from + 1) p
  end.

(** The constant-throttle latch holds the throttle at [max_throttle]. *)
Definition latched (c : JoystickController) : Prop :=
  constant_throttle c = true -> throttle c = max_throttle c.

(** Magnitude at most one, of either sign. *)
Definition le1 (f : spec_float) : Prop := pos_le1 f \/ neg_le1 f.

(** Both commands within [-1, 1]. *)
Definition commands_in_range (c : JoystickController) : Prop :=
  in_range (-1) 1 (angle c) = true /\ in_range (-1) 1 (throttle c) = true.

(** The value field of a record is not the lowest [int16]. *)
Definition above_lowest (evbuf : list byte) : bool :=
  match unpack_IhBB evbuf with
  | Ok (_, value, _, _) => negb (value =? -32768)
  | Raise _ => true
  end.

(** What is checked of each [int16]: [value / 32767.0] is within [-1, 1]
    exactly when [value] is not -32768. *)
Definition axis_value_check (value : Z) : bool :=
  Bool.eqb (in_range (-1) 1 (Py.float_of_int value / 32767)%float)
           (negb (value =? -32768)).

(** The values [throttle_scale] takes: 0.0, and the negated hundredths. *)
Definition neg_grid (k : Z) : float :=
  if k =? 0 then 0%float else hundredth true k.

(** What is checked of each of the hundredths from 0 to 100: the six
    update expressions of the loop body move it to the hundredth five (or
    one) further, clamped. *)
Definition step_check (k : Z) : bool :=
  PrimFloat.Leibniz.eqb (Py.round2 (Py.min 1 (hundredth false k + 0.05)%float))
                        (hundredth false (Z.min (k + 5) 100)) &&
  PrimFloat.Leibniz.eqb (Py.round2 (Py.max 0 (hundredth false k - 0.05)%float))
                        (hundredth false (Z.max (k - 5) 0)) &&
  PrimFloat.Leibniz.eqb (Py.round2 (Py.min 1 (hundredth false k + 0.01)%float))
                        (hundredth false (Z.min (k + 1) 100)) &&
  PrimFloat.Leibniz.eqb (Py.round2 (Py.max 0 (hundredth false k - 0.01)%float))
                        (hundredth false (Z.max (k - 1) 0)) &&
  PrimFloat.Leibniz.eqb (Py.round2 (Py.min 0 (neg_grid k + 0.05)%float))
                        (neg_grid (Z.max (k - 5) 0)) &&
  PrimFloat.Leibniz.eqb (Py.round2 (Py.max (-1) (neg_grid k - 0.05)%float))
                        (neg_grid (Z.min (k + 5) 100)).

(** A read that the loop handles without exception on a joystick with
    the tables of [js]: nothing, or a whole record that is an
    initialization event or uses indices within the tables. *)
Definition record_ok (js : Joystick) (evbuf : list byte) : bool :=
  match evbuf with
  | [] => true
  | _ =>
      match unpack_IhBB evbuf with
      | Ok (_, _, typev, number) =>
          negb (Z.land typev 0x80 =? 0) || indices_in_tables js typev number
      | Raise _ => false
      end
  end.

(** * Properties *)

(** ** The loop body, block by block *)

Lemma apply_blocks obs c : apply obs c = run_blocks obs blocks c.
Proof. reflexivity. Qed.

Lemma fold_blocks_Raise obs e
    (bs : list (Observation -> JoystickController -> result JoystickController)) :
  fold_left (fun r blk => r >>- blk obs) bs (Raise e) = Raise e.
Proof. induction bs as [|b bs IH]; simpl; auto. Qed.

Lemma run_blocks_cons obs blk bs c :
  run_blocks obs (blk :: bs) c = blk obs c >>- run_blocks obs bs.
Proof.
  unfold run_blocks. simpl. destruct (blk obs c) as [c1|e]; simpl.
  - reflexivity.
  - apply fold_blocks_Raise.
Qed.

Lemma run_blocks_app obs bs1 bs2 c :
  run_blocks obs (bs1 ++ bs2) c = run_blocks obs bs1 c >>- run_blocks obs bs2.
Proof.
  revert c. induction bs1 as [|blk bs1 IH]; intros c.
  - reflexivity.
  - rewrite <- app_comm_cons, !run_blocks_cons.
    destruct (blk obs c) as [c1|e]; simpl; [ apply IH | reflexivity ].
Qed.

(** A reflexive and transitive relation that every block of a list
    respects is respected by the list. *)
Lemma run_blocks_rel (R : JoystickController -> JoystickController -> Prop) obs bs :
  (forall c, R c c) ->
  (forall a b c, R a b -> R b c -> R a c) ->
  Forall (fun blk => forall c c', blk obs c = Ok c' -> R c c') bs ->
  forall c c', run_blocks obs bs c = Ok c' -> R c c'.
Proof.
  intros Hrefl Htrans Hall.
  induction Hall as [|blk bs Hblk _ IH]; intros c c'.
  - intros [= ->]. apply Hrefl.
  - rewrite run_blocks_cons. destruct (blk obs c) as [c1|e] eqn:E; simpl.
    + intros H. apply (Htrans _ c1); [ apply Hblk, E | apply IH, H ].
    + discriminate.
Qed.

Lemma apply_rel (R : JoystickController -> JoystickController -> Prop) obs :
  (forall c, R c c) ->
  (forall a b c, R a b -> R b c -> R a c) ->
  Forall (fun blk => forall c c', blk obs c = Ok c' -> R c c') blocks ->
  forall c c', apply obs c = Ok c' -> R c c'.
Proof. intros ? ? ? c c'. rewrite apply_blocks. now apply run_blocks_rel. Qed.

(** Blocks that return their argument compose to the identity. *)
Lemma run_blocks_id obs bs c :
  Forall (fun blk => blk obs c = Ok c) bs -> run_blocks obs bs c = Ok c.
Proof.
  induction 1 as [|blk bs Hb _ IH]; [ reflexivity | ].
  rewrite run_blocks_cons, Hb. exact IH.
Qed.

(** Case analysis on the guards of one block. *)
Ltac block_cases :=
  repeat match goal with
    | H : Ok _ = Ok _ |- _ => injection H as <-
    | H : Raise _ = Ok _ |- _ => discriminate H
    | H : context [match axis_val ?o with _ => _ end] |- _ =>
        destruct (axis_val o) eqn:?
    | H : context [if ?b then _ else _] |- _ => destruct b eqn:?
    end.

Ltac goal_cases :=
  repeat match goal with
    | |- context [if ?b then _ else _] => destruct b eqn:?
    end.

Ltac unfold_blocks :=
  unfold steering_moved, throttle_moved, dpadx_moved, dpady_moved,
    option_pressed, circle_pressed, r1_pressed, l1_pressed, r2_pressed,
    l2_pressed, triangle_pressed, max_throttle_changed, on_throttle_changes in *.

(** Proves [Forall P bs] for an explicit list when each entry yields to [tac]. *)
Ltac each_block tac :=
  repeat (apply List.Forall_cons; [ tac | ]); apply List.Forall_nil.

Lemma axis_is_None obs name : axis obs = None -> axis_is obs name = false.
Proof. intros H. unfold axis_is. rewrite H. reflexivity. Qed.

Lemma pressed_released obs name :
  button_state obs <> Some 1 -> pressed obs name = false.
Proof.
  intros H. unfold pressed. rewrite (bool_decide_eq_false_2 _ H).
  apply andb_false_r.
Qed.

Lemma pressed_other obs name name' :
  pressed obs name = true -> name <> name' -> pressed obs name' = false.
Proof.
  unfold pressed. intros H Hne. apply andb_true_iff in H as [H _].
  apply bool_decide_eq_true_1 in H.
  rewrite bool_decide_eq_false_2; [ reflexivity | congruence ].
Qed.

Lemma pressed_no_button obs name : button obs = None -> pressed obs name = false.
Proof. intros H. unfold pressed. rewrite H. reflexivity. Qed.

Lemma apply_no_observation c : apply no_observation c = Ok c.
Proof. reflexivity. Qed.

(** The body returns whenever an axis name comes with its value. *)
Lemma apply_total obs c : axis_has_value obs -> exists c', apply obs c = Ok c'.
Proof.
  intros Hwf. rewrite apply_blocks.
  assert (Hblk : Forall (fun blk => forall c, exists c', blk obs c = Ok c') blocks).
  { unfold blocks.
    each_block ltac:(intros c0; unfold_blocks;
      destruct Hwf as [Hn | [v Hv]];
      [ rewrite ?(axis_is_None _ _ Hn) | rewrite ?Hv ];
      goal_cases; eauto). }
  generalize dependent c. induction Hblk as [|blk bs Hb _ IH]; intros c.
  - eexists; reflexivity.
  - rewrite run_blocks_cons. destruct (Hb c) as [c1 ->]. apply IH.
Qed.

Lemma apply_all_total obss c :
  Forall axis_has_value obss -> exists c', apply_all c obss = Ok c'.
Proof.
  intros H. revert c. induction H as [|obs obss Hobs _ IH]; intros c; simpl.
  - eauto.
  - destruct (apply_total obs c Hobs) as [c1 ->]. apply IH.
Qed.

(** ** What the body never touches *)

Lemma apply_same_config obs c c' : apply obs c = Ok c' -> same_config c c'.
Proof.
  revert c c'. apply apply_rel.
  - intros c. repeat split.
  - unfold same_config. intros a b c (?&?&?&?&?) (?&?&?&?&?).
    repeat split; congruence.
  - unfold blocks.
    each_block ltac:(intros c0 c1 H; unfold_blocks; block_cases;
                     goal_cases; repeat split).
Qed.

(** Without an axis and without a press, no block fires. *)
Lemma apply_idle obs c :
  axis obs = None -> button_state obs <> Some 1 -> apply obs c = Ok c.
Proof.
  intros Ha Hb. rewrite apply_blocks. apply run_blocks_id. unfold blocks.
  each_block ltac:(unfold_blocks;
    rewrite ?(axis_is_None _ _ Ha), ?(pressed_released _ _ Hb); reflexivity).
Qed.

(** ** C8: initialization events *)

(** C8.  For every 8-byte record whose event type has bit 0x80 set,
    whatever its other bits, [poll] returns the tuple of four [None]
    without touching the joystick caches, and the iteration of the loop
    that read it leaves the controller and the joystick as they were. *)
Theorem init_event_ignored
    (c : JoystickController) (js : Joystick) (evbuf : list byte)
    (tval value typev number : Z) :
  unpack_IhBB evbuf = Ok (tval, value, typev, number) ->
  Z.land typev 0x80 <> 0 ->
  poll js evbuf = (js, Ok no_observation) /\
  update_step (c, js) evbuf = Ok (c, js).
Proof.
  intros Hun Hbit.
  assert (Hpoll : poll js evbuf = (js, Ok no_observation)).
  { unfold poll. destruct evbuf as [|b0 rest]; [ reflexivity | ].
    rewrite Hun. apply Z.eqb_neq in Hbit. rewrite Hbit. reflexivity. }
  split; [ exact Hpoll | ].
  unfold update_step. simpl. rewrite Hpoll, apply_no_observation. reflexivity.
Qed.

(** The scenario of the specification: event type 0x81 (init and button),
    index 0, value 1, on a pad whose button 0 is 'triangle'. *)
Lemma init_event_ignored_witness :
  let js := init Joystick_new (mkDeviceReport 1 [0x01] 1 [0x133]) in
  let evbuf := [x00; x00; x00; x00; x01; x00; x81; x00]%byte in
  poll js evbuf = (js, Ok no_observation) /\
  update_step (JoystickController_default, js) evbuf
    = Ok (JoystickController_default, js).
Proof.
  intros js evbuf.
  apply (init_event_ignored JoystickController_default js evbuf 0 1 0x81 0).
  - reflexivity.
  - vm_compute. discriminate.
Defined.

(** ** C9: releases *)

(** C9.  A button observation whose state is not 1 -- a release, state 0,
    in particular -- leaves every attribute of the controller unchanged:
    the body returns the controller it was given. *)
Theorem release_changes_nothing (c : JoystickController) (name : string) (state : Z) :
  state <> 1 -> apply (button_changed name state) c = Ok c.
Proof.
  intros Hne. apply apply_idle; [ reflexivity | ].
  simpl. congruence.
Qed.

Lemma release_changes_nothing_witness :
  apply (button_changed "triangle" 0) JoystickController_default
    = Ok JoystickController_default.
Proof.
  apply (release_changes_nothing JoystickController_default "triangle" 0).
  lia.
Defined.

(** ** C6: the constant-throttle toggle *)

(** C6.  A press of the constant-throttle toggle ('triangle') flips
    [constant_throttle]; the throttle becomes [max_throttle] when the latch
    is switched on and 0 when it is switched off; then the auto-record rule
    runs on the new throttle; nothing else changes.  With max_throttle 0.3
    one press gives throttle 0.3 and a second press gives throttle 0.0, on
    the observations and on the records of the pad alike. *)
Theorem constant_throttle_toggle :
  (forall c : JoystickController,
     exists c', apply triangle_press c = Ok c' /\
       constant_throttle c' = negb (constant_throttle c) /\
       throttle c' = (if constant_throttle c then 0%float else max_throttle c) /\
       recording c' = (if auto_record_on_throttle c then should_record c'
                       else recording c) /\
       mode c' = mode c /\ angle c' = angle c /\
       max_throttle c' = max_throttle c /\
       steering_scale c' = steering_scale c /\
       throttle_scale c' = throttle_scale c /\ same_config c c') /\
  (let c0 := JoystickController_new 0 0.3 "rx" "ly" 1 (-1) true in
   (exists c1, apply_all c0 [triangle_press] = Ok c1 /\
               throttle c1 = 0.3%float /\ constant_throttle c1 = true) /\
   (exists c2, apply_all c0 [triangle_press; triangle_press] = Ok c2 /\
               throttle c2 = 0%float /\ constant_throttle c2 = false) /\
   (exists c1 js1, update (c0, ps4) [triangle_down] = Ok (c1, js1) /\
                   throttle c1 = 0.3%float) /\
   (exists c2 js2, update (c0, ps4) [triangle_down; triangle_down] = Ok (c2, js2) /\
                   throttle c2 = 0%float)).
Proof.
  split.
  - intros c. unfold apply, triangle_press. unfold_blocks. simpl.
    destruct (constant_throttle c) eqn:Hc, (auto_record_on_throttle c) eqn:Ha;
      simpl; eexists; (split; [ reflexivity | ]); simpl;
      rewrite ?Hc, ?Ha; repeat split; reflexivity.
  - cbv zeta. repeat split.
    + eexists. split; [ vm_compute; reflexivity | split; reflexivity ].
    + eexists. split; [ vm_compute; reflexivity | split; reflexivity ].
    + eexists _, (fst (poll ps4 triangle_down)).
      split; [ vm_compute; reflexivity | reflexivity ].
    + eexists _, (fst (poll (fst (poll ps4 triangle_down)) triangle_down)).
      split; [ vm_compute; reflexivity | reflexivity ].
Qed.

(** ** C1: the mode switch *)

Lemma next_mode_moves m : next_mode m <> m.
Proof. destruct m; discriminate. Qed.

Lemma next_mode_period m : next_mode (next_mode (next_mode m)) = m.
Proof. destruct m; reflexivity. Qed.

(** The mode is assigned by the ['option'] block alone. *)
Lemma apply_mode obs c c' :
  apply obs c = Ok c' ->
  mode c' = (if pressed obs "option" then next_mode (mode c) else mode c).
Proof.
  rewrite apply_blocks.
  change blocks with
    ([steering_moved; throttle_moved; dpadx_moved; dpady_moved]
       ++ [option_pressed]
       ++ [circle_pressed; r1_pressed; l1_pressed; r2_pressed; l2_pressed;
           triangle_pressed]).
  rewrite run_blocks_app.
  destruct (run_blocks obs _ c) as [c1|e] eqn:E1; cbn [bind]; [ | discriminate ].
  rewrite run_blocks_app.
  destruct (run_blocks obs [option_pressed] c1) as [c2|e] eqn:E2; cbn [bind];
    [ | discriminate ].
  intros E3.
  assert (Hkeep : forall bs,
    Forall (fun blk => forall c c', blk obs c = Ok c' -> mode c' = mode c) bs ->
    forall c c', run_blocks obs bs c = Ok c' -> mode c' = mode c).
  { intros bs Hbs. apply run_blocks_rel with (R := fun c c' => mode c' = mode c);
      [ reflexivity | intros; congruence | exact Hbs ]. }
  apply Hkeep in E1, E3.
  2,3: each_block ltac:(intros c0 c0' H; unfold_blocks; block_cases;
                        goal_cases; reflexivity).
  rewrite E3. unfold run_blocks in E2. simpl in E2. unfold option_pressed in E2.
  destruct (pressed obs "option"); injection E2 as <-; rewrite <- E1;
    reflexivity.
Qed.

(** As written, the block cycles user -> local_angle -> local -> user on
    an observation named 'option', with period three. *)
Lemma option_observation_cycles c :
  exists c1 c2 c3,
    apply (button_changed "option" 1) c = Ok c1 /\ mode c1 = next_mode (mode c) /\
    apply (button_changed "option" 1) c1 = Ok c2 /\ mode c2 = next_mode (mode c1) /\
    apply (button_changed "option" 1) c2 = Ok c3 /\ mode c3 = mode c.
Proof.
  assert (Hstep : forall c0, exists c1,
            apply (button_changed "option" 1) c0 = Ok c1 /\
            mode c1 = next_mode (mode c0)).
  { intros c0. destruct (apply_total (button_changed "option" 1) c0) as [c1 H1].
    - left; reflexivity.
    - exists c1. split; [ exact H1 | ]. apply apply_mode in H1. exact H1. }
  destruct (Hstep c) as (c1 & H1 & M1), (Hstep c1) as (c2 & H2 & M2),
    (Hstep c2) as (c3 & H3 & M3).
  exists c1, c2, c3. repeat split; try assumption.
  rewrite M3, M2, M1. apply next_mode_period.
Qed.

(** No name the capability tables can produce is 'option'. *)
Lemma button_name_not_option btn :
  default (unknown_button btn) (button_names !! btn) <> "option"%string.
Proof.
  destruct (button_names !! btn) as [s|] eqn:E; simpl.
  - assert (H : map_Forall (fun _ s => s <> "option"%string) button_names).
    { apply map_Forall_to_list. vm_compute.
      repeat (apply List.Forall_cons; [ discriminate | ]). apply List.Forall_nil. }
    exact (H btn s E).
  - discriminate.
Qed.

Lemma init_axis_fold_button_map axes js :
  button_map (fold_left init_axis axes js) = button_map js.
Proof.
  revert js. induction axes as [|a axes IH]; intros js; cbn [fold_left].
  - reflexivity.
  - rewrite IH. reflexivity.
Qed.

Lemma init_button_fold_axis_map btns js :
  axis_map (fold_left init_button btns js) = axis_map js.
Proof.
  revert js. induction btns as [|b btns IH]; intros js; cbn [fold_left].
  - reflexivity.
  - rewrite IH. reflexivity.
Qed.

Lemma init_button_fold_button_map btns js :
  button_map (fold_left init_button btns js)
  = button_map js
      ++ map (fun btn => default (unknown_button btn) (button_names !! btn)) btns.
Proof.
  revert js. induction btns as [|b btns IH]; intros js; cbn [fold_left map].
  - now rewrite app_nil_r.
  - rewrite IH. unfold init_button. cbn [button_map].
    now rewrite <- app_assoc.
Qed.

Lemma init_axis_fold_axis_map axes js :
  axis_map (fold_left init_axis axes js)
  = axis_map js
      ++ map (fun a => default (unknown_axis a) (axis_names !! a)) axes.
Proof.
  revert js. induction axes as [|a axes IH]; intros js; cbn [fold_left map].
  - now rewrite app_nil_r.
  - rewrite IH. unfold init_axis. cbn [axis_map].
    now rewrite <- app_assoc.
Qed.

Lemma init_no_option_button rep :
  Forall (fun name => name <> "option"%string) (button_map (init Joystick_new rep)).
Proof.
  unfold init. rewrite init_button_fold_button_map, init_axis_fold_button_map.
  cbn [button_map Joystick_new app]. apply Forall_map. apply Forall_forall. intros btn _.
  apply button_name_not_option.
Qed.

(** [poll] never assigns the capability tables. *)
Lemma poll_keeps_maps js evbuf :
  axis_map (fst (poll js evbuf)) = axis_map js /\
  button_map (fst (poll js evbuf)) = button_map js.
Proof.
  unfold poll. destruct evbuf as [|b0 rest]; [ auto | ].
  destruct (unpack_IhBB _) as [[[[tval value] typev] number]|e]; [ | auto ].
  destruct (negb _); [ auto | ].
  unfold poll_button, poll_axis.
  repeat match goal with
    | |- context [if ?b then _ else _] => destruct b
    | |- context [match list_index ?l ?n with _ => _ end] =>
        destruct (list_index l n)
    end; simpl; auto.
Qed.

(** The button name [poll] returns is an entry of the button table. *)
Lemma poll_button_in_map js evbuf js' obs name :
  poll js evbuf = (js', Ok obs) -> button obs = Some name ->
  name ∈ button_map js.
Proof.
  unfold poll. destruct evbuf as [|b0 rest]; [ intros [= <- <-]; discriminate | ].
  destruct (unpack_IhBB _) as [[[[tval value] typev] number]|e]; [ | discriminate ].
  destruct (negb _); [ intros [= <- <-]; discriminate | ].
  unfold poll_button.
  destruct (Z.land typev 1 =? 0).
  - destruct (poll_axis _ _ _ _) as [js2 [[a av]|e]]; [ | discriminate ].
    intros [= <- <-]; discriminate.
  - unfold list_index. destruct (button_map js !! Z.to_nat number) as [btn|] eqn:E;
      [ | discriminate ].
    assert (Hin : btn ∈ button_map js) by (eapply list_elem_of_lookup_2; eauto).
    destruct (truthy btn);
      (destruct (poll_axis _ _ _ _) as [js2 [[a av]|e]]; [ | discriminate ]);
      intros [= <- <-]; simpl; intros [= <-]; exact Hin.
Qed.

(** On a joystick whose table has no 'option' entry, an iteration of the
    loop keeps the mode. *)
Lemma update_step_keeps_mode c js evbuf c' js' :
  Forall (fun name => name <> "option"%string) (button_map js) ->
  update_step (c, js) evbuf = Ok (c', js') ->
  mode c' = mode c /\ button_map js' = button_map js.
Proof.
  intros Hno. unfold update_step. simpl.
  destruct (poll js evbuf) as [js1 [obs|e]] eqn:Hpoll; [ | discriminate ].
  destruct (apply obs c) as [c1|e] eqn:Happ; [ | discriminate ].
  intros [= <- <-]. split.
  - apply apply_mode in Happ. rewrite Happ.
    destruct (pressed obs "option") eqn:Hp; [ exfalso | reflexivity ].
    unfold pressed in Hp. apply andb_true_iff in Hp as [Hp _].
    apply bool_decide_eq_true_1 in Hp.
    pose proof (poll_button_in_map _ _ _ _ _ Hpoll Hp) as Hin.
    rewrite Forall_forall in Hno. exact (Hno _ Hin eq_refl).
  - pose proof (poll_keeps_maps js evbuf) as [_ Hb]. rewrite Hpoll in Hb. exact Hb.
Qed.

(** Whatever the device reports and whatever it sends, the polling loop
    never leaves the mode it started in. *)
Lemma update_never_switches_mode rep reads c c' js' :
  update (c, init Joystick_new rep) reads = Ok (c', js') -> mode c' = mode c.
Proof.
  pose proof (init_no_option_button rep) as Hno.
  generalize dependent (init Joystick_new rep). intros js. revert c js.
  induction reads as [|evbuf reads IH]; intros c js Hno; simpl.
  - intros [= <- <-]. reflexivity.
  - destruct (running c); [ | intros [= <- <-]; reflexivity ].
    destruct (update_step (c, js) evbuf) as [[c1 js1]|e] eqn:Hs; [ | discriminate ].
    apply update_step_keeps_mode in Hs as [Hm Hb]; [ | exact Hno ].
    intros H. rewrite <- Hm. apply (IH c1 js1); [ congruence | exact H ].
Qed.

(** C1.  The press of the 'options' button of the pad is decoded as the
    observation ('options', 1); the loop body compares the name with
    'option', so the mode stays 'user' where the specification has it
    advance to 'local_angle'. *)
Theorem options_press_keeps_user_mode :
  snd (poll ps4 options_down) = Ok (button_changed "options" 1) /\
  exists c' js',
    update_step (JoystickController_default, ps4) options_down = Ok (c', js') /\
    mode JoystickController_default = user /\ mode c' = user.
Proof.
  split; [ vm_compute; reflexivity | ].
  destruct (update_step (JoystickController_default, ps4) options_down)
    as [[c' js']|e] eqn:E; [ | vm_compute in E; discriminate ].
  exists c', js'. split; [ reflexivity | ]. split; [ reflexivity | ].
  apply update_step_keeps_mode in E as [Hm _]; [ exact Hm | ].
  apply init_no_option_button.
Qed.

(** ** C2: the auto-record rule *)

Lemma record_rel_refl c : record_rel c c.
Proof. intros Ha. auto. Qed.

Lemma record_rel_trans a b c : record_rel a b -> record_rel b c -> record_rel a c.
Proof.
  intros Hab Hbc Ha. destruct (Hab Ha) as (Hb & Mb & Rb).
  destruct (Hbc Hb) as (Hc & Mc & Rc). repeat split; [ assumption | congruence | ].
  destruct Rc as [[Tc Rc]|Rc]; [ | right; exact Rc ].
  destruct Rb as [[Tb Rb]|Rb]; [ left; split; congruence | right ].
  rewrite Rc, Rb. unfold should_record. now rewrite Tc, Mc.
Qed.

Lemma blocks_record_rel obs :
  pressed obs "option" = false ->
  Forall (fun blk => forall c c', blk obs c = Ok c' -> record_rel c c') blocks.
Proof.
  intros Hopt. unfold blocks.
  each_block ltac:(intros c0 c1 H Ha; unfold_blocks;
    rewrite ?Hopt, ?Ha in H; block_cases; cbn; rewrite ?Ha;
    goal_cases; cbn; auto).
Qed.

Lemma apply_record_rel obs c c' :
  pressed obs "option" = false -> apply obs c = Ok c' -> record_rel c c'.
Proof.
  intros Hopt. revert c c'.
  apply apply_rel;
    [ apply record_rel_refl | apply record_rel_trans | apply blocks_record_rel, Hopt ].
Qed.





(** ** C3: indices beyond the capability tables *)

Lemma list_index_out_of_range {A} (l : list A) number :
  0 <= number -> Z.of_nat (length l) <= number ->
  list_index l number = Raise IndexError.
Proof.
  intros H0 Hlen. unfold list_index.
  rewrite (proj2 (lookup_ge_None l (Z.to_nat number))); [ reflexivity | lia ].
Qed.

(** The fields read by [struct.unpack] are within their widths. *)
Lemma byte_to_Z_range b : 0 <= Z.of_N (Byte.to_N b) < 256.
Proof. pose proof (Byte.to_N_bounded b). lia. Qed.

Lemma unpack_IhBB_range evbuf tval value typev number :
  unpack_IhBB evbuf = Ok (tval, value, typev, number) ->
  length evbuf = 8%nat /\ 0 <= tval < 2 ^ 32 /\ -32768 <= value <= 32767 /\
  0 <= typev < 256 /\ 0 <= number < 256.
Proof.
  unfold unpack_IhBB.
  destruct evbuf as [|b0 [|b1 [|b2 [|b3 [|b4 [|b5 [|b6 [|b7 [|]]]]]]]]];
    try discriminate.
  intros [= <- <- <- <-]. unfold to_int16, le_uint. cbn [fold_right length].
  pose proof (byte_to_Z_range b0). pose proof (byte_to_Z_range b1).
  pose proof (byte_to_Z_range b2). pose proof (byte_to_Z_range b3).
  pose proof (byte_to_Z_range b4). pose proof (byte_to_Z_range b5).
  pose proof (byte_to_Z_range b6). pose proof (byte_to_Z_range b7).
  split; [ reflexivity | ].
  destruct (Z.ltb_spec (Z.of_N (Byte.to_N b4) + 256 * (Z.of_N (Byte.to_N b5) + 256 * 0)) 32768);
    lia.
Qed.

(** C3, as the code has it.  For a well-formed 8-byte record with bit 0x80
    clear whose index is at or beyond the length of the button table (with
    the button bit set) or of the axis table (with the axis bit set),
    [poll] raises IndexError: it returns no observation, and the iteration
    of the polling loop ends with that exception. *)
Theorem out_of_range_index_raises
    (c : JoystickController) (js : Joystick) (evbuf : list byte)
    (tval value typev number : Z) :
  unpack_IhBB evbuf = Ok (tval, value, typev, number) ->
  Z.land typev 0x80 = 0 ->
  (Z.land typev 0x01 <> 0 /\ Z.of_nat (length (button_map js)) <= number) \/
  (Z.land typev 0x02 <> 0 /\ Z.of_nat (length (axis_map js)) <= number) ->
  snd (poll js evbuf) = Raise IndexError /\
  update_step (c, js) evbuf = Raise IndexError.
Proof.
  intros Hun H80 Hoob.
  pose proof (unpack_IhBB_range _ _ _ _ _ Hun) as (_ & _ & _ & _ & Hnum).
  assert (Hpoll : snd (poll js evbuf) = Raise IndexError).
  { unfold poll. destruct evbuf as [|b0 rest]; [ discriminate | ].
    rewrite Hun, H80. cbn [Z.eqb negb].
    unfold poll_button.
    destruct (Z.eqb_spec (Z.land typev 1) 0) as [Hb|Hb].
    - destruct Hoob as [[Hb' _]|[Ha Hlen]]; [ contradiction | ].
      unfold poll_axis. apply Z.eqb_neq in Ha. rewrite Ha.
      rewrite list_index_out_of_range by lia. reflexivity.
    - destruct (list_index (button_map js) number) as [btn|e] eqn:Ebtn.
      + destruct Hoob as [[_ Hlen]|[Ha Hlen]].
        * rewrite list_index_out_of_range in Ebtn by lia. discriminate.
        * unfold poll_axis. apply Z.eqb_neq in Ha.
          destruct (truthy btn); cbn [axis_map]; rewrite Ha;
            rewrite list_index_out_of_range by lia; reflexivity.
      + unfold list_index in Ebtn.
        destruct (button_map js !! Z.to_nat number); [ discriminate | ].
        injection Ebtn as <-. reflexivity. }
  split; [ exact Hpoll | ].
  unfold update_step. cbn [snd fst]. destruct (poll js evbuf) as [js' r].
  simpl in Hpoll. subst r. reflexivity.
Qed.

(** Button 200 on a pad with thirteen buttons. *)
Lemma out_of_range_index_raises_witness :
  snd (poll ps4 button_200_down) = Raise IndexError /\
  update_step (JoystickController_default, ps4) button_200_down = Raise IndexError.
Proof.
  apply (out_of_range_index_raises JoystickController_default ps4
           button_200_down 0 1 0x01 200).
  - reflexivity.
  - reflexivity.
  - left. split; [ discriminate | vm_compute; discriminate ].
Defined.

(** C3 as worded fails: the record is not dropped, the lookup raises. *)
Lemma out_of_range_button_is_not_dropped :
  unpack_IhBB button_200_down = Ok (0, 1, 0x01, 200) /\
  Z.of_nat (length (button_map ps4)) <= 200 /\
  poll ps4 button_200_down <> (ps4, Ok no_observation) /\
  poll ps4 button_200_down = (ps4, Raise IndexError).
Proof.
  assert (H : poll ps4 button_200_down = (ps4, Raise IndexError))
    by (vm_compute; reflexivity).
  split; [ reflexivity | ].
  split; [ vm_compute; discriminate | ].
  split; [ rewrite H; intros [=] | exact H ].
Qed.

(** ** C4 and C5: axis events *)

Lemma truthy_nonempty s : s <> ""%string -> truthy s = true.
Proof. destruct s; [ congruence | reflexivity ]. Qed.

(** Every tuple of fields within the widths is read back from its record:
    in particular every value from -32768 to 32767 reaches [poll]. *)
Lemma byte_of_Z_value z : Z.of_N (Byte.to_N (byte_of_Z z)) = z mod 256.
Proof.
  unfold byte_of_Z. pose proof (Z.mod_pos_bound z 256 ltac:(lia)) as Hz.
  destruct (Byte.of_N (Z.to_N (z mod 256))) as [b|] eqn:E.
  - apply Byte.to_of_N in E. rewrite E. apply Z2N.id. lia.
  - apply Byte.of_N_None_iff in E. lia.
Qed.

Lemma unpack_pack tval value typev number :
  0 <= tval < 2 ^ 32 -> -32768 <= value <= 32767 ->
  0 <= typev < 256 -> 0 <= number < 256 ->
  unpack_IhBB (pack_IhBB tval value typev number) = Ok (tval, value, typev, number).
Proof.
  intros Ht Hv Hty Hn. unfold unpack_IhBB, pack_IhBB, le_uint, to_int16.
  cbn [fold_right]. rewrite !byte_of_Z_value.
  change (2 ^ 32) with 4294967296 in Ht.
  assert (H1 : tval mod 256 + 256 * ((tval / 256) mod 256 + 256 *
               ((tval / 65536) mod 256 + 256 * ((tval / 16777216) mod 256 + 256 * 0)))
               = tval) by (Z.div_mod_to_equations; lia).
  assert (H2 : value mod 256 + 256 * ((value / 256) mod 256 + 256 * 0)
               = value mod 65536) by (Z.div_mod_to_equations; lia).
  assert (H3 : typev mod 256 + 256 * 0 = typev) by (Z.div_mod_to_equations; lia).
  assert (H4 : number mod 256 + 256 * 0 = number) by (Z.div_mod_to_equations; lia).
  rewrite H1, H2, H3, H4.
  destruct (Z.ltb_spec (value mod 65536) 32768) as [Hlt|Hge];
    repeat f_equal; Z.div_mod_to_equations; lia.
Qed.

(** What [poll] does with a record that has the axis bit alone. *)
Lemma poll_axis_event js evbuf tval value typev number name :
  unpack_IhBB evbuf = Ok (tval, value, typev, number) ->
  Z.land typev 0x80 = 0 -> Z.land typev 0x01 = 0 -> Z.land typev 0x02 <> 0 ->
  axis_map js !! Z.to_nat number = Some name -> name <> ""%string ->
  let fvalue := (Py.float_of_int value / 32767)%float in
  poll js evbuf =
    ({| axis_states := <[name := fvalue]> (axis_states js);
        button_states := button_states js;
        axis_map := axis_map js; button_map := button_map js |},
     Ok (axis_moved name fvalue)).
Proof.
  intros Hun H80 H01 H02 Hname Hne fvalue.
  unfold poll. destruct evbuf as [|b0 rest]; [ discriminate | ].
  rewrite Hun, H80. cbn [Z.eqb negb].
  unfold poll_button. rewrite H01. cbn [Z.eqb].
  unfold poll_axis, list_index. apply Z.eqb_neq in H02. rewrite H02, Hname.
  rewrite (truthy_nonempty _ Hne). reflexivity.
Qed.

(** With no button in the tuple, only the four axis blocks can fire. *)
Lemma apply_axis_moved name v c :
  apply (axis_moved name v) c
  = run_blocks (axis_moved name v)
      [steering_moved; throttle_moved; dpadx_moved; dpady_moved] c.
Proof.
  rewrite apply_blocks.
  change blocks with
    ([steering_moved; throttle_moved; dpadx_moved; dpady_moved]
       ++ [option_pressed; circle_pressed; r1_pressed; l1_pressed; r2_pressed;
           l2_pressed; triangle_pressed]).
  rewrite run_blocks_app.
  destruct (run_blocks _ [steering_moved; throttle_moved; dpadx_moved; dpady_moved] c)
    as [c1|e]; cbn [bind]; [ | reflexivity ].
  apply run_blocks_id.
  each_block ltac:(reflexivity).
Qed.

(** The two d-pad blocks leave the commands, the mode and the max throttle. *)
Lemma dpad_blocks_frame obs c c' :
  run_blocks obs [dpadx_moved; dpady_moved] c = Ok c' ->
  angle c' = angle c /\ throttle c' = throttle c /\ recording c' = recording c /\
  mode c' = mode c /\ max_throttle c' = max_throttle c /\
  constant_throttle c' = constant_throttle c /\
  (axis_is obs "dpadx" = false -> steering_scale c' = steering_scale c) /\
  (axis_is obs "dpady" = false -> throttle_scale c' = throttle_scale c).
Proof.
  unfold run_blocks. cbn [fold_left bind].
  destruct (dpadx_moved obs c) as [c1|e] eqn:E1; cbn [bind]; [ | discriminate ].
  intros E2. unfold dpadx_moved, dpady_moved in *.
  destruct (axis_is obs "dpadx") eqn:Hx, (axis_is obs "dpady") eqn:Hy;
    block_cases; cbn; repeat split; congruence.
Qed.

Lemma axis_is_moved name v name' :
  axis_is (axis_moved name v) name' = bool_decide (name = name').
Proof.
  unfold axis_is. cbn [axis axis_moved].
  apply bool_decide_ext. split; congruence.
Qed.




(** C5.  For every 8-byte record decoded as a move of the configured
    steering axis, whatever its signed 16-bit value, the observation
    carries [value / 32767.0] as it is (it is also what the axis cache
    holds) and in the resulting state [angle] is
    [steering_scale * (value / 32767.0)], the scale being the attribute at
    the time of the assignment; steering_scale is unchanged unless the
    steering axis is the d-pad axis that adjusts it.  Nothing clamps: the
    instance proved after the theorem is value -32768, whose normalized
    value is below -1.0. *)
Theorem steering_axis_event
    (c : JoystickController) (js : Joystick) (evbuf : list byte)
    (tval value typev number : Z) :
  unpack_IhBB evbuf = Ok (tval, value, typev, number) ->
  Z.land typev 0x80 = 0 -> Z.land typev 0x01 = 0 -> Z.land typev 0x02 <> 0 ->
  axis_map js !! Z.to_nat number = Some (steering_axis c) ->
  steering_axis c <> ""%string ->
  exists c' js',
    snd (poll js evbuf)
      = Ok (axis_moved (steering_axis c) (Py.float_of_int value / 32767)%float) /\
    update_step (c, js) evbuf = Ok (c', js') /\
    angle c' = (steering_scale c * (Py.float_of_int value / 32767))%float /\
    axis_states js' !! steering_axis c = Some (Py.float_of_int value / 32767)%float /\
    (steering_axis c <> "dpadx"%string -> steering_scale c' = steering_scale c).
Proof.
  intros Hun H80 H01 H02 Hname Hne.
  pose proof (poll_axis_event _ _ _ _ _ _ _ Hun H80 H01 H02 Hname Hne) as Hpoll.
  cbv zeta in Hpoll. set (v := (Py.float_of_int value / 32767)%float) in *.
  unfold update_step. cbn [fst snd]. rewrite Hpoll.
  destruct (apply_total (axis_moved (steering_axis c) v) c) as [c' Happ];
    [ right; eexists; reflexivity | ].
  rewrite Happ. eexists _, _. split; [ reflexivity | ].
  split; [ reflexivity | ].
  rewrite apply_axis_moved in Happ.
  change [steering_moved; throttle_moved; dpadx_moved; dpady_moved]
    with ([steering_moved; throttle_moved] ++ [dpadx_moved; dpady_moved]) in Happ.
  rewrite run_blocks_app in Happ.
  destruct (run_blocks _ [steering_moved; throttle_moved] c) as [c2|e] eqn:E12;
    cbn [bind] in Happ; [ | discriminate ].
  apply dpad_blocks_frame in Happ as (Han & _ & _ & _ & _ & _ & Hss & _).
  rewrite axis_is_moved in Hss.
  unfold run_blocks in E12. cbn [fold_left bind] in E12.
  unfold steering_moved, throttle_moved in E12.
  rewrite !axis_is_moved in E12. cbn [axis_val axis_moved] in E12.
  rewrite bool_decide_eq_true_2 in E12 by reflexivity. cbn [bind] in E12.
  rewrite axis_is_moved in E12.
  assert (Hc2 : angle c2 = (steering_scale c * v)%float /\
                steering_scale c2 = steering_scale c).
  { cbn [throttle_axis set_angle] in E12.
    destruct (bool_decide (steering_axis c = throttle_axis c));
      injection E12 as <-; unfold on_throttle_changes; cbn;
      goal_cases; split; reflexivity. }
  destruct Hc2 as [Ha2 Hs2].
  split; [ congruence | ]. split.
  - cbn [axis_states]. apply lookup_insert_eq.
  - intros Hd. rewrite Hss by (apply bool_decide_eq_false_2; congruence).
    exact Hs2.
Qed.

(** Steering axis at -32768: the normalized value -32768/32767 is below
    -1.0 and is the angle, the steering scale being 1.0. *)
Lemma steering_axis_event_witness :
  exists c' js',
    update_step (JoystickController_default, ps4) rx_lowest = Ok (c', js') /\
    angle c' = (Py.float_of_int (-32768) / 32767)%float /\
    (angle c' <? -1)%float = true.
Proof.
  destruct (steering_axis_event JoystickController_default ps4 rx_lowest
              0 (-32768) 0x02 3) as (c' & js' & _ & Hstep & Ha & _).
  - reflexivity.
  - reflexivity.
  - reflexivity.
  - discriminate.
  - reflexivity.
  - discriminate.
  - exists c', js'. split; [ exact Hstep | ].
    assert (Ha' : angle c' = (Py.float_of_int (-32768) / 32767)%float)
      by (rewrite Ha; vm_compute; reflexivity).
    split; [ exact Ha' | ]. rewrite Ha'. vm_compute. reflexivity.
Defined.

(** ** C10: the diagnostic caches *)





(** [init] enters every discovered name with 0.0, respectively 0. *)
Lemma init_axis_fold_states axes js :
  (forall name, name ∈ axis_map js -> axis_states js !! name = Some 0%float) ->
  forall name, name ∈ axis_map (fold_left init_axis axes js) ->
               axis_states (fold_left init_axis axes js) !! name = Some 0%float.
Proof.
  revert js. induction axes as [|a axes IH]; intros js Hjs; cbn [fold_left].
  - exact Hjs.
  - apply IH. intros name. unfold init_axis. cbn [axis_map axis_states].
    intros Hin. apply elem_of_app in Hin as [Hin|Hin].
    + destruct (decide (default (unknown_axis a) (axis_names !! a) = name)) as [->|Hne].
      * apply lookup_insert_eq.
      * rewrite lookup_insert_ne by exact Hne. apply Hjs, Hin.
    + apply list_elem_of_singleton in Hin as ->. apply lookup_insert_eq.
Qed.

Lemma init_button_fold_states btns js :
  (forall name, name ∈ button_map js -> button_states js !! name = Some 0) ->
  forall name, name ∈ button_map (fold_left init_button btns js) ->
               button_states (fold_left init_button btns js) !! name = Some 0.
Proof.
  revert js. induction btns as [|b btns IH]; intros js Hjs; cbn [fold_left].
  - exact Hjs.
  - apply IH. intros name. unfold init_button. cbn [button_map button_states].
    intros Hin. apply elem_of_app in Hin as [Hin|Hin].
    + destruct (decide (default (unknown_button b) (button_names !! b) = name)) as [->|Hne].
      * apply lookup_insert_eq.
      * rewrite lookup_insert_ne by exact Hne. apply Hjs, Hin.
    + apply list_elem_of_singleton in Hin as ->. apply lookup_insert_eq.
Qed.

Lemma init_button_fold_axis_states btns js :
  axis_states (fold_left init_button btns js) = axis_states js.
Proof.
  revert js. induction btns as [|b btns IH]; intros js; cbn [fold_left].
  - reflexivity.
  - rewrite IH. reflexivity.
Qed.

Lemma init_axis_fold_button_states axes js :
  button_states (fold_left init_axis axes js) = button_states js.
Proof.
  revert js. induction axes as [|a axes IH]; intros js; cbn [fold_left].
  - reflexivity.
  - rewrite IH. reflexivity.
Qed.

Lemma init_caches rep :
  let js := init Joystick_new rep in
  (forall name, name ∈ axis_map js -> axis_states js !! name = Some 0%float) /\
  (forall name, name ∈ button_map js -> button_states js !! name = Some 0).
Proof.
  unfold init. split; intros name.
  - rewrite init_button_fold_axis_map, init_button_fold_axis_states.
    apply init_axis_fold_states. cbn [axis_map Joystick_new]. intros n Hn.
    apply elem_of_nil in Hn as [].
  - apply init_button_fold_states. rewrite init_axis_fold_button_map.
    cbn [button_map Joystick_new]. intros n Hn. apply elem_of_nil in Hn as [].
Qed.




(** ** Binary64 arithmetic: magnitudes through rounding *)

Lemma digits2_pos_bounds (m : positive) :
  2 ^ (Z.pos (digits2_pos m) - 1) <= Z.pos m < 2 ^ Z.pos (digits2_pos m).
Proof.
  induction m as [m IH|m IH|]; cbn [digits2_pos].
  - rewrite Pos2Z.inj_succ, Z.pow_succ_r by lia.
    replace (Z.succ (Z.pos (digits2_pos m)) - 1)
      with (Z.succ (Z.pos (digits2_pos m) - 1)) by lia.
    rewrite Z.pow_succ_r by lia. lia.
  - rewrite Pos2Z.inj_succ, Z.pow_succ_r by lia.
    replace (Z.succ (Z.pos (digits2_pos m)) - 1)
      with (Z.succ (Z.pos (digits2_pos m) - 1)) by lia.
    rewrite Z.pow_succ_r by lia. lia.
  - cbn. lia.
Qed.

(** A mantissa at most [2^a] has at most [a + 1] digits. *)
Lemma Zdigits2_le (m a : Z) : 0 <= m -> 0 <= a -> m <= 2 ^ a -> Zdigits2 m <= a + 1.
Proof.
  intros Hm Ha Hle. destruct m as [|p|p]; cbn [Zdigits2]; [ lia | | lia ].
  pose proof (digits2_pos_bounds p) as [Hlo _].
  destruct (Z.le_gt_cases (Z.pos (digits2_pos p)) (a + 1)) as [|Hgt]; [ assumption | ].
  assert (2 ^ a < 2 ^ (Z.pos (digits2_pos p) - 1))
    by (apply Z.pow_lt_mono_r; lia).
  lia.
Qed.

Lemma shr_1_m mrs : 0 <= shr_m mrs -> shr_m (shr_1 mrs) = shr_m mrs / 2.
Proof.
  destruct mrs as [m r s]. cbn [shr_m]. intros Hm. unfold shr_1.
  destruct m as [|[p|p|]|p]; cbn [shr_m]; try lia.
  - reflexivity.
  - rewrite Pos2Z.inj_xI. apply Z.div_unique with (r := 1); lia.
  - rewrite Pos2Z.inj_xO. apply Z.div_unique with (r := 0); lia.
  - reflexivity.
Qed.

Lemma iter_shr_1_m p mrs :
  0 <= shr_m mrs ->
  shr_m (SpecFloat.iter_pos shr_1 p mrs) = shr_m mrs / 2 ^ Z.pos p.
Proof.
  revert mrs. induction p as [p IH|p IH|]; intros mrs Hm; cbn [SpecFloat.iter_pos].
  - assert (H1 : 0 <= shr_m (shr_1 mrs))
      by (rewrite shr_1_m by assumption; apply Z.div_pos; lia).
    assert (H2 : 0 <= shr_m (SpecFloat.iter_pos shr_1 p (shr_1 mrs)))
      by (rewrite IH by assumption; apply Z.div_pos; [ lia | apply Z.pow_pos_nonneg; lia ]).
    rewrite IH, IH, shr_1_m by assumption.
    rewrite !Z.div_div by (try apply Z.pow_pos_nonneg; lia).
    f_equal. rewrite (Pos2Z.inj_xI p).
    replace (2 * Z.pos p + 1) with (Z.succ (Z.pos p + Z.pos p)) by lia.
    rewrite Z.pow_succ_r, Z.pow_add_r by lia. reflexivity.
  - assert (H2 : 0 <= shr_m (SpecFloat.iter_pos shr_1 p mrs))
      by (rewrite IH by assumption; apply Z.div_pos; [ lia | apply Z.pow_pos_nonneg; lia ]).
    rewrite IH, IH by assumption.
    rewrite !Z.div_div by (try apply Z.pow_pos_nonneg; lia).
    f_equal. rewrite (Pos2Z.inj_xO p).
    replace (2 * Z.pos p) with (Z.pos p + Z.pos p) by lia.
    rewrite Z.pow_add_r by lia. reflexivity.
  - rewrite shr_1_m by assumption. reflexivity.
Qed.

Lemma shr_record_of_loc_m m l : shr_m (shr_record_of_loc m l) = m.
Proof. destruct l as [|[]]; reflexivity. Qed.

(** A right shift keeps the value at most one (strictly below one). *)
Lemma shr_fexp_le1 m e l :
  0 <= m -> e <= 0 -> m <= 2 ^ (- e) ->
  let r := shr_fexp prec emax m e l in
  0 <= shr_m (fst r) /\ snd r <= 0 /\ shr_m (fst r) <= 2 ^ (- snd r) /\
  (m < 2 ^ (- e) -> shr_m (fst r) < 2 ^ (- snd r)).
Proof.
  intros Hm He Hle. unfold shr_fexp, shr.
  pose proof (Zdigits2_le m (- e) Hm ltac:(lia) Hle) as Hd.
  assert (Hf : fexp prec emax (Zdigits2 m + e) <= 0).
  { unfold fexp, SpecFloat.emin, prec, emax. lia. }
  destruct (fexp prec emax (Zdigits2 m + e) - e) as [|k|k] eqn:Ek;
    cbn [fst snd]; rewrite ?shr_record_of_loc_m; try (repeat split; lia).
  rewrite iter_shr_1_m by (rewrite shr_record_of_loc_m; lia).
  rewrite shr_record_of_loc_m.
  assert (Hpk : 0 < 2 ^ Z.pos k) by (apply Z.pow_pos_nonneg; lia).
  assert (Hsplit : 2 ^ (- e) = 2 ^ (- (e + Z.pos k)) * 2 ^ Z.pos k).
  { rewrite <- Z.pow_add_r by lia. f_equal. lia. }
  split; [ apply Z.div_pos; lia | ]. split; [ lia | ]. split.
  - apply Z.div_le_upper_bound; [ lia | ]. rewrite Z.mul_comm, <- Hsplit. exact Hle.
  - intros Hlt. apply Z.div_lt_upper_bound; [ lia | ].
    rewrite Z.mul_comm, <- Hsplit. exact Hlt.
Qed.

Lemma round_nearest_even_bounds m l :
  m <= round_nearest_even m l <= m + 1.
Proof.
  unfold round_nearest_even. destruct l as [|[]]; try lia.
  destruct (Z.even m); lia.
Qed.
Lemma binary_round_aux_sign sx mx ex lx :
  sign_is sx (binary_round_aux prec emax sx mx ex lx).
Proof.
  unfold binary_round_aux.
  destruct (shr_fexp prec emax mx ex lx) as [mrs' e'].
  destruct (shr_fexp prec emax _ e' loc_Exact) as [mrs'' e''].
  destruct (shr_m mrs''); [ reflexivity | | exact I ].
  destruct (e'' <=? emax - prec); reflexivity.
Qed.

Lemma binary_round_aux_le1 sx mx ex :
  0 <= mx -> ex <= 0 -> mx < 2 ^ (- ex) ->
  signed_le1 sx (binary_round_aux prec emax sx mx ex loc_Exact).
Proof.
  intros Hm He Hlt. unfold binary_round_aux.
  pose proof (shr_fexp_le1 mx ex loc_Exact Hm He ltac:(lia)) as H1.
  destruct (shr_fexp prec emax mx ex loc_Exact) as [mrs' e'].
  cbn [fst snd] in H1. destruct H1 as (Hm1 & He1 & _ & Hlt1).
  specialize (Hlt1 Hlt).
  pose proof (round_nearest_even_bounds (shr_m mrs') (loc_of_shr_record mrs')) as Hr.
  pose proof (shr_fexp_le1 (round_nearest_even (shr_m mrs') (loc_of_shr_record mrs'))
                e' loc_Exact ltac:(lia) He1 ltac:(lia)) as H2.
  destruct (shr_fexp prec emax _ e' loc_Exact) as [mrs'' e''].
  cbn [fst snd] in H2. destruct H2 as (Hm2 & He2 & Hle2 & _).
  destruct (shr_m mrs'') as [|m|m]; [ destruct sx; exact I | | lia ].
  assert (Hfin : (e'' <=? emax - prec) = true)
    by (apply Z.leb_le; unfold emax, prec; lia).
  rewrite Hfin. destruct sx; split; assumption.
Qed.

Lemma Pos_iter_xO m d : Z.pos (Pos.iter xO m d) = Z.pos m * 2 ^ Z.pos d.
Proof.
  induction d as [|d IH] using Pos.peano_ind.
  - cbn. lia.
  - rewrite Pos.iter_succ, Pos2Z.inj_xO, IH, Pos2Z.inj_succ, Z.pow_succ_r by lia.
    lia.
Qed.

(** Aligning a mantissa to a lower exponent keeps the value. *)
Lemma shl_align_fst m e e' :
  e' <= e -> Z.pos (fst (shl_align m e e')) = Z.pos m * 2 ^ (e - e').
Proof.
  intros Hle. unfold shl_align.
  destruct (e' - e) as [|d|d] eqn:Ed; cbn [fst].
  - replace (e - e') with 0 by lia. lia.
  - lia.
  - rewrite Pos_iter_xO. f_equal. f_equal. lia.
Qed.

Lemma shl_align_le1 m e e' :
  e' <= e -> e <= 0 -> Z.pos m <= 2 ^ (- e) ->
  Z.pos (fst (shl_align m e e')) <= 2 ^ (- e').
Proof.
  intros Hle He Hm. rewrite shl_align_fst by assumption.
  replace (- e') with (- e + (e - e')) by lia.
  rewrite Z.pow_add_r by lia.
  apply Z.mul_le_mono_nonneg_r; [ apply Z.pow_nonneg; lia | exact Hm ].
Qed.

Lemma binary_round_sign sx mx ex : sign_is sx (binary_round prec emax sx mx ex).
Proof.
  unfold binary_round. destruct (shl_align mx ex _) as [mz ez].
  apply binary_round_aux_sign.
Qed.

Lemma binary_round_le1 sx mx ex :
  ex <= 0 -> Z.pos mx < 2 ^ (- ex) ->
  signed_le1 sx (binary_round prec emax sx mx ex).
Proof.
  intros He Hlt. unfold binary_round.
  destruct (shl_align mx ex (fexp prec emax (Z.pos (digits2_pos mx) + ex)))
    as [mz ez] eqn:Ea.
  unfold shl_align in Ea.
  destruct (fexp prec emax (Z.pos (digits2_pos mx) + ex) - ex) as [|d|d] eqn:Ed;
    injection Ea as <- <-; try (apply binary_round_aux_le1; lia).
  apply binary_round_aux_le1; [ lia | lia | ].
  rewrite Pos_iter_xO.
  replace (- fexp prec emax (Z.pos (digits2_pos mx) + ex)) with (- ex + Z.pos d) by lia.
  rewrite Z.pow_add_r by lia.
  apply Z.mul_lt_mono_pos_r; [ apply Z.pow_pos_nonneg; lia | exact Hlt ].
Qed.

(** The sum or difference of two aligned mantissas, rounded. *)
Lemma binary_normalize_le1 m e szero :
  e <= 0 -> Z.abs m < 2 ^ (- e) ->
  signed_le1 (m <? 0) (binary_normalize prec emax m e szero).
Proof.
  intros He Hm. unfold binary_normalize. destruct m as [|p|p]; cbn [Z.ltb Z.compare].
  - exact I.
  - apply binary_round_le1; [ assumption | lia ].
  - apply binary_round_le1; [ assumption | lia ].
Qed.

Lemma binary_normalize_sign_pos m e szero :
  0 < m -> sign_is false (binary_normalize prec emax m e szero).
Proof.
  intros Hm. unfold binary_normalize. destruct m as [|p|p]; [ lia | | lia ].
  apply binary_round_sign.
Qed.

Lemma binary_normalize_sign_neg m e szero :
  m < 0 -> sign_is true (binary_normalize prec emax m e szero).
Proof.
  intros Hm. unfold binary_normalize. destruct m as [|p|p]; [ lia | lia | ].
  apply binary_round_sign.
Qed.

(** Validity bounds the mantissa, hence the exponent of a value at most one. *)
Lemma valid_mantissa_lt s m e :
  valid_binary (S754_finite s m e) = true -> Z.pos m < 2 ^ 53.
Proof.
  unfold SpecFloat.valid_binary, bounded, canonical_mantissa, fexp, SpecFloat.emin,
    prec, emax.
  intros H. apply andb_true_iff in H as [H _]. apply Z.eqb_eq in H.
  pose proof (digits2_pos_bounds m) as [_ Hhi].
  assert (Z.pos (digits2_pos m) <= 53) by lia.
  assert (2 ^ Z.pos (digits2_pos m) <= 2 ^ 53) by (apply Z.pow_le_mono_r; lia).
  lia.
Qed.

Lemma valid_le1_exponent s m e :
  valid_binary (S754_finite s m e) = true ->
  e <= 0 -> Z.pos m <= 2 ^ (- e) -> e <= -52.
Proof.
  unfold SpecFloat.valid_binary, bounded, canonical_mantissa, fexp, SpecFloat.emin,
    prec, emax.
  intros H He Hm. apply andb_true_iff in H as [H _]. apply Z.eqb_eq in H.
  pose proof (digits2_pos_bounds m) as [Hlo _].
  destruct (Z.le_gt_cases e (-52)) as [|Hgt]; [ assumption | exfalso ].
  assert (Hd : Z.pos (digits2_pos m) = 53) by lia.
  rewrite Hd in Hlo.
  assert (2 ^ (- e) < 2 ^ (53 - 1)) by (apply Z.pow_lt_mono_r; lia).
  lia.
Qed.

Lemma Prim2SF_0 : Prim2SF 0 = S754_zero false.
Proof. reflexivity. Qed.

Lemma Prim2SF_1 : Prim2SF 1 = S754_finite false 4503599627370496 (-52).
Proof. reflexivity. Qed.

Lemma Prim2SF_m1 : Prim2SF (-1) = S754_finite true 4503599627370496 (-52).
Proof. reflexivity. Qed.

(** Not above 1.0, respectively not below -1.0. *)
Lemma not_above_one m e :
  Z.pos m < 2 ^ 53 ->
  SFcompare (S754_finite false m e) (S754_finite false 4503599627370496 (-52))
    <> Some Gt ->
  e <= 0 /\ Z.pos m <= 2 ^ (- e).
Proof.
  intros Hm. cbn [SFcompare].
  destruct (Z.compare_spec e (-52)) as [->|Hlt|Hgt].
  - intros Hc. split; [ lia | ].
    assert (Hp : 2 ^ (- -52) = 4503599627370496) by reflexivity. rewrite Hp.
    pose proof (Pos.compare_spec m 4503599627370496) as Hs.
    unfold Pos.compare in Hs. destruct Hs as [Heq|H|H].
    + rewrite Heq. apply Z.le_refl.
    + apply Z.lt_le_incl, Pos2Z.pos_lt_pos, H.
    + exfalso. apply Hc. reflexivity.
  - intros _. split; [ lia | ].
    assert (2 ^ 53 <= 2 ^ (- e)) by (apply Z.pow_le_mono_r; lia). lia.
  - intros Hc. exfalso. apply Hc. reflexivity.
Qed.

Lemma not_below_minus_one m e :
  Z.pos m < 2 ^ 53 ->
  SFcompare (S754_finite true 4503599627370496 (-52)) (S754_finite true m e)
    <> Some Gt ->
  e <= 0 /\ Z.pos m <= 2 ^ (- e).
Proof.
  intros Hm. cbn [SFcompare].
  destruct (Z.compare_spec (-52) e) as [<-|Hlt|Hgt].
  - intros Hc. split; [ lia | ].
    assert (Hp : 2 ^ (- -52) = 4503599627370496) by reflexivity. rewrite Hp.
    pose proof (Pos.compare_spec 4503599627370496 m) as Hs.
    unfold Pos.compare in Hs. destruct Hs as [Heq|H|H]; cbn [CompOpp] in Hc.
    + rewrite <- Heq. apply Z.le_refl.
    + exfalso. apply Hc. reflexivity.
    + apply Z.lt_le_incl, Pos2Z.pos_lt_pos, H.
  - intros Hc. exfalso. apply Hc. reflexivity.
  - intros _. split; [ lia | ].
    assert (2 ^ 53 <= 2 ^ (- e)) by (apply Z.pow_le_mono_r; lia). lia.
Qed.

Lemma SFleb_not_Gt f g : SFleb f g = true -> SFcompare f g <> Some Gt.
Proof. unfold SFleb. destruct (SFcompare f g) as [[]|]; congruence. Qed.

Lemma SFltb_not_Gt f g : SFltb f g = true -> SFcompare f g <> Some Gt.
Proof. unfold SFltb. destruct (SFcompare f g) as [[]|]; congruence. Qed.

(** A float between 0.0 and 1.0, respectively between -1.0 and 0.0. *)
Lemma leb_0_1_le1 x :
  (0 <=? x)%float = true -> (x <=? 1)%float = true -> pos_le1 (Prim2SF x).
Proof.
  rewrite !leb_spec, Prim2SF_0, Prim2SF_1. intros H0 H1.
  pose proof (Prim2SF_valid x) as Hv.
  destruct (Prim2SF x) as [s|s| |s m e]; try destruct s; try discriminate;
    try exact I.
  cbn [pos_le1]. apply not_above_one; [ eapply valid_mantissa_lt, Hv | ].
  apply SFleb_not_Gt, H1.
Qed.

Lemma leb_m1_0_le1 x :
  (-1 <=? x)%float = true -> (x <=? 0)%float = true -> neg_le1 (Prim2SF x).
Proof.
  rewrite !leb_spec, Prim2SF_0, Prim2SF_m1. intros H0 H1.
  pose proof (Prim2SF_valid x) as Hv.
  destruct (Prim2SF x) as [s|s| |s m e]; try destruct s; try discriminate;
    try exact I.
  cbn [neg_le1]. apply not_below_minus_one; [ eapply valid_mantissa_lt, Hv | ].
  apply SFleb_not_Gt, H0.
Qed.

(** Adding or subtracting a positive step of at most one. *)
Section step.
Variables (c : float) (mc : positive) (ec : Z).
Hypothesis Hc : Prim2SF c = S754_finite false mc ec.
Hypothesis Hc1 : ec <= 0 /\ Z.pos mc <= 2 ^ (- ec).

Lemma add_step_sign s :
  pos_le1 (Prim2SF s) -> sign_is false (Prim2SF (s + c)).
Proof.
  rewrite add_spec, Hc. unfold SF64add, SFadd.
  destruct (Prim2SF s) as [s0|s0| |[] ms es]; cbn [pos_le1]; try contradiction;
    intros Hs.
  - reflexivity.
  - cbn [cond_Zopp]. apply binary_normalize_sign_pos. lia.
Qed.

Lemma sub_step_sign s :
  neg_le1 (Prim2SF s) -> sign_is true (Prim2SF (s - c)).
Proof.
  rewrite sub_spec, Hc. unfold SF64sub, SFsub.
  destruct (Prim2SF s) as [s0|s0| |[] ms es]; cbn [neg_le1]; try contradiction;
    intros Hs.
  - reflexivity.
  - cbn [cond_Zopp]. apply binary_normalize_sign_neg. lia.
Qed.

Lemma sub_step_le1 s :
  pos_le1 (Prim2SF s) ->
  pos_le1 (Prim2SF (s - c)) \/ neg_le1 (Prim2SF (s - c)).
Proof.
  rewrite sub_spec, Hc. unfold SF64sub, SFsub.
  destruct (Prim2SF s) as [s0|s0| |[] ms es]; cbn [pos_le1]; try contradiction;
    intros Hs.
  - right. exact Hc1.
  - cbn [cond_Zopp].
    pose proof (shl_align_le1 ms es (Z.min es ec) ltac:(lia) (proj1 Hs) (proj2 Hs)).
    pose proof (shl_align_le1 mc ec (Z.min es ec) ltac:(lia) (proj1 Hc1) (proj2 Hc1)).
    set (a := Z.pos (fst (shl_align ms es (Z.min es ec)))) in *.
    set (b := Z.pos (fst (shl_align mc ec (Z.min es ec)))) in *.
    assert (0 < a) by (unfold a; lia). assert (0 < b) by (unfold b; lia).
    pose proof (binary_normalize_le1 (a - b) (Z.min es ec) false ltac:(lia) ltac:(lia)) as Hn.
    destruct (a - b <? 0); [ right | left ]; exact Hn.
Qed.

Lemma add_step_le1 s :
  neg_le1 (Prim2SF s) ->
  pos_le1 (Prim2SF (s + c)) \/ neg_le1 (Prim2SF (s + c)).
Proof.
  rewrite add_spec, Hc. unfold SF64add, SFadd.
  destruct (Prim2SF s) as [s0|s0| |[] ms es]; cbn [neg_le1]; try contradiction;
    intros Hs.
  - left. exact Hc1.
  - cbn [cond_Zopp].
    pose proof (shl_align_le1 ms es (Z.min es ec) ltac:(lia) (proj1 Hs) (proj2 Hs)).
    pose proof (shl_align_le1 mc ec (Z.min es ec) ltac:(lia) (proj1 Hc1) (proj2 Hc1)).
    set (a := Z.pos (fst (shl_align ms es (Z.min es ec)))) in *.
    set (b := Z.pos (fst (shl_align mc ec (Z.min es ec)))) in *.
    assert (0 < a) by (unfold a; lia). assert (0 < b) by (unfold b; lia).
    pose proof (binary_normalize_le1 (- a + b) (Z.min es ec) false ltac:(lia) ltac:(lia)) as Hn.
    destruct (- a + b <? 0); [ right | left ]; exact Hn.
Qed.

(** [min(1.0, s + c)] *)
Lemma min_1_add_le1 s :
  pos_le1 (Prim2SF s) -> pos_le1 (Prim2SF (Py.min 1 (s + c))).
Proof.
  intros Hs. unfold Py.min. destruct (s + c <? 1)%float eqn:E.
  - rewrite ltb_spec, Prim2SF_1 in E.
    pose proof (add_step_sign s Hs) as Hsign.
    pose proof (Prim2SF_valid (s + c)) as Hv.
    destruct (Prim2SF (s + c)) as [s0|s0| |s0 m e]; cbn [sign_is] in Hsign;
      subst; try discriminate; try exact I.
    cbn [pos_le1]. apply not_above_one; [ eapply valid_mantissa_lt, Hv | ].
    apply SFltb_not_Gt, E.
  - rewrite Prim2SF_1. cbn. lia.
Qed.

(** [max(0.0, s - c)] *)
Lemma max_0_sub_le1 s :
  pos_le1 (Prim2SF s) -> pos_le1 (Prim2SF (Py.max 0 (s - c))).
Proof.
  intros Hs. unfold Py.max. destruct (0 <? s - c)%float eqn:E.
  - rewrite ltb_spec, Prim2SF_0 in E.
    destruct (sub_step_le1 s Hs) as [H|H]; [ exact H | ].
    destruct (Prim2SF (s - c)) as [s0|s0| |[] m e]; cbn [neg_le1] in H;
      try contradiction; discriminate.
  - rewrite Prim2SF_0. exact I.
Qed.

(** [min(0.0, s + c)] *)
Lemma min_0_add_le1 s :
  neg_le1 (Prim2SF s) -> neg_le1 (Prim2SF (Py.min 0 (s + c))).
Proof.
  intros Hs. unfold Py.min. destruct (s + c <? 0)%float eqn:E.
  - rewrite ltb_spec, Prim2SF_0 in E.
    destruct (add_step_le1 s Hs) as [H|H]; [ | exact H ].
    destruct (Prim2SF (s + c)) as [s0|s0| |[] m e]; cbn [pos_le1] in H;
      try contradiction; discriminate.
  - rewrite Prim2SF_0. exact I.
Qed.

(** [max(-1.0, s - c)] *)
Lemma max_m1_sub_le1 s :
  neg_le1 (Prim2SF s) -> neg_le1 (Prim2SF (Py.max (-1) (s - c))).
Proof.
  intros Hs. unfold Py.max. destruct (-1 <? s - c)%float eqn:E.
  - rewrite ltb_spec, Prim2SF_m1 in E.
    pose proof (sub_step_sign s Hs) as Hsign.
    pose proof (Prim2SF_valid (s - c)) as Hv.
    destruct (Prim2SF (s - c)) as [s0|s0| |s0 m e]; cbn [sign_is] in Hsign;
      subst; try discriminate; try exact I.
    cbn [neg_le1]. apply not_below_minus_one; [ eapply valid_mantissa_lt, Hv | ].
    apply SFltb_not_Gt, E.
  - rewrite Prim2SF_m1. cbn. lia.
Qed.

End step.

(** ** [round(x, 2)] on values of magnitude at most one *)

Lemma div_half_even_bounds a b N :
  0 < b -> 0 <= a <= N * b -> 0 <= Py.div_half_even a b <= N.
Proof.
  intros Hb Ha. unfold Py.div_half_even.
  pose proof (Z.div_mod a b ltac:(lia)) as Hdm.
  pose proof (Z.mod_pos_bound a b Hb) as Hr.
  assert (Hq0 : 0 <= a / b) by (apply Z.div_pos; lia).
  assert (HqN : a / b <= N) by (apply Z.div_le_upper_bound; lia).
  destruct (Z.compare_spec (2 * (a mod b)) b) as [He|Hl|Hg].
  - destruct (Z.even (a / b)); [ lia | ].
    destruct (Z.eq_dec (a / b) N) as [Heq|]; [ | lia ].
    rewrite Heq in Hdm. nia.
  - lia.
  - destruct (Z.eq_dec (a / b) N) as [Heq|]; [ | lia ].
    rewrite Heq in Hdm. nia.
Qed.

Lemma grid_checked : forallb grid_check (map Z.of_nat (seq 0 101)) = true.
Proof. vm_compute. reflexivity. Qed.

Lemma grid_check_ok n : 0 <= n <= 100 -> grid_check n = true.
Proof.
  intros Hn. pose proof grid_checked as H. rewrite forallb_forall in H.
  apply H. apply in_map_iff. exists (Z.to_nat n). split; [ lia | ].
  apply in_seq. lia.
Qed.

Lemma hundredth_ok (n : Z) (neg : bool) :
  0 <= n <= 100 ->
  in_range (if neg then (-1)%float else 0%float)
    (if neg then 0%float else 1%float) (hundredth neg n) = true /\
  two_decimals (hundredth neg n).
Proof.
  intros Hn. pose proof (grid_check_ok n Hn) as H. unfold grid_check in H.
  apply andb_true_iff in H as [H H4]. apply andb_true_iff in H as [H H3].
  apply andb_true_iff in H as [H1 H2].
  apply FloatAxioms.Leibniz.eqb_spec in H2, H4.
  destruct neg; split; assumption.
Qed.

Lemma Prim2SF_zero_cases x s : Prim2SF x = S754_zero s -> x = (if s then -0 else 0)%float.
Proof.
  intros H. rewrite <- (SF2Prim_Prim2SF x), H. destruct s; reflexivity.
Qed.

(** The result of [round(x, 2)] is a hundredth of the sign of [x]. *)
Lemma round2_le1 x (neg : bool) :
  signed_le1 neg (Prim2SF x) ->
  exists n neg', 0 <= n <= 100 /\ Py.round2 x = hundredth neg' n /\
                 (neg' = neg \/ n = 0).
Proof.
  intros H. pose proof (Prim2SF_valid x) as Hv. unfold Py.round2.
  destruct (Prim2SF x) as [s|s| |s m e] eqn:E.
  - exists 0, s. split; [ lia | ]. split; [ | right; reflexivity ].
    rewrite (Prim2SF_zero_cases x s E). destruct s; reflexivity.
  - destruct neg; contradiction.
  - destruct neg; contradiction.
  - assert (Hle : e <= 0 /\ Z.pos m <= 2 ^ (- e) /\ s = neg).
    { destruct neg, s; cbn in H; try contradiction; intuition. }
    destruct Hle as (He & Hm & ->).
    pose proof (valid_le1_exponent _ _ _ Hv He Hm) as He52.
    assert (Hb : (-7 <? e) = false) by (apply Z.ltb_ge; lia). rewrite Hb.
    assert (Hpow : 0 < 2 ^ (- e)) by (apply Z.pow_pos_nonneg; lia).
    exists (Py.div_half_even (100 * Z.pos m) (2 ^ (- e))), neg.
    split; [ apply div_half_even_bounds; lia | ]. split; [ | left; reflexivity ].
    unfold hundredth. destruct neg; reflexivity.
Qed.

Lemma round2_unit x :
  pos_le1 (Prim2SF x) ->
  in_range 0 1 (Py.round2 x) = true /\ two_decimals (Py.round2 x).
Proof.
  intros H. destruct (round2_le1 x false H) as (n & neg' & Hn & -> & [->| ->]).
  - apply (hundredth_ok n false Hn).
  - destruct neg'; [ | apply (hundredth_ok 0 false); lia ].
    split; [ reflexivity | ]. apply (hundredth_ok 0 true). lia.
Qed.

Lemma round2_neg_unit x :
  neg_le1 (Prim2SF x) ->
  in_range (-1) 0 (Py.round2 x) = true /\ two_decimals (Py.round2 x).
Proof.
  intros H. destruct (round2_le1 x true H) as (n & neg' & Hn & -> & [->| ->]).
  - apply (hundredth_ok n true Hn).
  - destruct neg'; [ apply (hundredth_ok 0 true); lia | ].
    split; [ reflexivity | ]. apply (hundredth_ok 0 false). lia.
Qed.

Lemma in_unit_le1 x : in_range 0 1 x = true -> pos_le1 (Prim2SF x).
Proof.
  unfold in_range. intros H. apply andb_true_iff in H as [H0 H1].
  now apply leb_0_1_le1.
Qed.

Lemma in_neg_unit_le1 x : in_range (-1) 0 x = true -> neg_le1 (Prim2SF x).
Proof.
  unfold in_range. intros H. apply andb_true_iff in H as [H0 H1].
  now apply leb_m1_0_le1.
Qed.

(** The six update expressions of the loop body. *)
Lemma Prim2SF_step5 : Prim2SF 0.05 = S754_finite false 7205759403792794 (-57).
Proof. reflexivity. Qed.

Lemma Prim2SF_step1 : Prim2SF 0.01 = S754_finite false 5764607523034235 (-59).
Proof. reflexivity. Qed.

Lemma step5_le1 : -57 <= 0 /\ Z.pos 7205759403792794 <= 2 ^ (- -57).
Proof. split; [ lia | ]. vm_compute. discriminate. Qed.

Lemma step1_le1 : -59 <= 0 /\ Z.pos 5764607523034235 <= 2 ^ (- -59).
Proof. split; [ lia | ]. vm_compute. discriminate. Qed.

Lemma steering_scale_up s :
  in_range 0 1 s = true ->
  in_range 0 1 (Py.round2 (Py.min 1 (s + 0.05))) = true /\
  two_decimals (Py.round2 (Py.min 1 (s + 0.05))).
Proof.
  intros H. apply round2_unit. apply (min_1_add_le1 _ _ _ Prim2SF_step5 step5_le1).
  apply in_unit_le1. exact H.
Qed.

Lemma steering_scale_down s :
  in_range 0 1 s = true ->
  in_range 0 1 (Py.round2 (Py.max 0 (s - 0.05))) = true /\
  two_decimals (Py.round2 (Py.max 0 (s - 0.05))).
Proof.
  intros H. apply round2_unit. apply (max_0_sub_le1 _ _ _ Prim2SF_step5 step5_le1).
  apply in_unit_le1. exact H.
Qed.

Lemma throttle_scale_up s :
  in_range (-1) 0 s = true ->
  in_range (-1) 0 (Py.round2 (Py.min 0 (s + 0.05))) = true /\
  two_decimals (Py.round2 (Py.min 0 (s + 0.05))).
Proof.
  intros H. apply round2_neg_unit.
  apply (min_0_add_le1 _ _ _ Prim2SF_step5 step5_le1).
  apply in_neg_unit_le1. exact H.
Qed.

Lemma throttle_scale_down s :
  in_range (-1) 0 s = true ->
  in_range (-1) 0 (Py.round2 (Py.max (-1) (s - 0.05))) = true /\
  two_decimals (Py.round2 (Py.max (-1) (s - 0.05))).
Proof.
  intros H. apply round2_neg_unit. apply (max_m1_sub_le1 _ _ _ Prim2SF_step5 step5_le1).
  apply in_neg_unit_le1. exact H.
Qed.

Lemma max_throttle_up s :
  in_range 0 1 s = true ->
  in_range 0 1 (Py.round2 (Py.min 1 (s + 0.01))) = true /\
  two_decimals (Py.round2 (Py.min 1 (s + 0.01))).
Proof.
  intros H. apply round2_unit. apply (min_1_add_le1 _ _ _ Prim2SF_step1 step1_le1).
  apply in_unit_le1. exact H.
Qed.

Lemma max_throttle_down s :
  in_range 0 1 s = true ->
  in_range 0 1 (Py.round2 (Py.max 0 (s - 0.01))) = true /\
  two_decimals (Py.round2 (Py.max 0 (s - 0.01))).
Proof.
  intros H. apply round2_unit. apply (max_0_sub_le1 _ _ _ Prim2SF_step1 step1_le1).
  apply in_unit_le1. exact H.
Qed.

(** ** C7: the scales stay in range *)

Lemma scale_rel_refl c : scale_rel c c.
Proof. intros H. auto. Qed.

Lemma scale_rel_trans a b c : scale_rel a b -> scale_rel b c -> scale_rel a c.
Proof.
  intros Hab Hbc Ha. destruct (Hab Ha) as (Hb & K1).
  destruct (Hbc Hb) as (Hc & K2).
  split; [ exact Hc | ]. intros k.
  destruct (K2 k) as [->|]; auto.
Qed.

Lemma blocks_scale_rel obs :
  Forall (fun blk => forall c c', blk obs c = Ok c' -> scale_rel c c') blocks.
Proof.
  unfold blocks.
  each_block ltac:(intros c0 c1 H (Hs & Ht & Hm);
    pose proof (steering_scale_up _ Hs) as [? ?];
    pose proof (steering_scale_down _ Hs) as [? ?];
    pose proof (throttle_scale_up _ Ht) as [? ?];
    pose proof (throttle_scale_down _ Ht) as [? ?];
    pose proof (max_throttle_up _ Hm) as [? ?];
    pose proof (max_throttle_down _ Hm) as [? ?];
    unfold_blocks; block_cases; unfold scales_in_range; cbn;
    goal_cases; cbn; (split; [ auto | intros []; cbn; auto ])).
Qed.

Lemma apply_scale_rel obs c c' : apply obs c = Ok c' -> scale_rel c c'.
Proof.
  revert c c'. apply apply_rel;
    [ apply scale_rel_refl | apply scale_rel_trans | apply blocks_scale_rel ].
Qed.

(** An observation that does not adjust a scale leaves it. *)
Lemma apply_not_adjusting k obs c c' :
  adjusts k obs = false -> apply obs c = Ok c' -> scale_of k c' = scale_of k c.
Proof.
  intros Hk. revert c c'. apply apply_rel.
  - reflexivity.
  - intros a b c Hab Hbc. congruence.
  - unfold blocks.
    destruct k; unfold adjusts, axis_off_center in Hk;
      repeat match type of Hk with
        | (_ || _) = false => apply orb_false_iff in Hk as [Hk ?]
        end;
      each_block ltac:(intros c0 c1 Hblk; unfold_blocks; block_cases;
        goal_cases; try reflexivity; try discriminate;
        repeat match goal with
          | E : _ = true |- _ => rewrite E in *
          end; cbn in *; congruence).
Qed.

(** An observation that adjusts a scale leaves it a result of
    [round(_, 2)]: the adjusting block assigns one, and the blocks after
    it keep it or assign another. *)
Lemma adjusted_then_kept k obs pre blk post c c' :
  blocks = pre ++ blk :: post ->
  (forall c1 c2, scales_in_range c1 -> blk obs c1 = Ok c2 ->
                 two_decimals (scale_of k c2)) ->
  scales_in_range c -> apply obs c = Ok c' -> two_decimals (scale_of k c').
Proof.
  intros Hsplit Hblk Hc. rewrite apply_blocks.
  pose proof (blocks_scale_rel obs) as Hall. rewrite Hsplit in *.
  apply Forall_app in Hall as [Hpre Hrest].
  apply Forall_cons in Hrest as [Hb Hpost].
  rewrite run_blocks_app.
  destruct (run_blocks obs pre c) as [c1|e] eqn:E1; cbn [bind]; [ | discriminate ].
  rewrite run_blocks_cons.
  destruct (blk obs c1) as [c2|e] eqn:E2; cbn [bind]; [ | discriminate ].
  intros E3.
  pose proof (run_blocks_rel scale_rel obs pre scale_rel_refl scale_rel_trans
                Hpre c c1 E1 Hc) as [Hc1 _].
  pose proof (Hb c1 c2 E2 Hc1) as [Hc2 _].
  pose proof (run_blocks_rel scale_rel obs post scale_rel_refl scale_rel_trans
                Hpost c2 c' E3 Hc2) as [_ K].
  destruct (K k) as [->|]; [ | assumption ].
  exact (Hblk c1 c2 Hc1 E2).
Qed.

Lemma apply_adjusting k obs c c' :
  adjusts k obs = true -> scales_in_range c -> apply obs c = Ok c' ->
  two_decimals (scale_of k c').
Proof.
  intros Hk Hc.
  destruct k; unfold adjusts in Hk;
    repeat match type of Hk with
      | (_ || _) = true => apply orb_true_iff in Hk as [Hk|Hk]
      end.
  - apply (adjusted_then_kept SteeringScale obs
             [steering_moved; throttle_moved] dpadx_moved
             [dpady_moved; option_pressed; circle_pressed; r1_pressed; l1_pressed;
              r2_pressed; l2_pressed; triangle_pressed]); [ reflexivity | | exact Hc ].
    intros c1 c2 (Hs & _ & _) H. unfold axis_off_center in Hk.
    apply andb_true_iff in Hk as [Ha Hv]. unfold dpadx_moved in H.
    rewrite Ha in H. destruct (axis_val obs) as [v|]; [ | discriminate ].
    rewrite Hv in H.
    destruct (0 <? v)%float; injection H as <-; cbn;
      [ apply steering_scale_up | apply steering_scale_down ]; exact Hs.
  - apply (adjusted_then_kept ThrottleScale obs
             [steering_moved; throttle_moved; dpadx_moved] dpady_moved
             [option_pressed; circle_pressed; r1_pressed; l1_pressed;
              r2_pressed; l2_pressed; triangle_pressed]); [ reflexivity | | exact Hc ].
    intros c1 c2 (_ & Ht & _) H. unfold axis_off_center in Hk.
    apply andb_true_iff in Hk as [Ha Hv]. unfold dpady_moved in H.
    rewrite Ha in H. destruct (axis_val obs) as [v|]; [ | discriminate ].
    rewrite Hv in H.
    destruct (v <? 0)%float; injection H as <-; cbn;
      [ apply throttle_scale_down | apply throttle_scale_up ]; exact Ht.
  - apply (adjusted_then_kept ThrottleScale obs
             [steering_moved; throttle_moved; dpadx_moved; dpady_moved;
              option_pressed; circle_pressed; r1_pressed; l1_pressed] r2_pressed
             [l2_pressed; triangle_pressed]); [ reflexivity | | exact Hc ].
    intros c1 c2 (_ & Ht & _) H. unfold r2_pressed in H. rewrite Hk in H.
    injection H as <-. cbn. apply throttle_scale_up, Ht.
  - apply (adjusted_then_kept ThrottleScale obs
             [steering_moved; throttle_moved; dpadx_moved; dpady_moved;
              option_pressed; circle_pressed; r1_pressed; l1_pressed; r2_pressed]
             l2_pressed [triangle_pressed]); [ reflexivity | | exact Hc ].
    intros c1 c2 (_ & Ht & _) H. unfold l2_pressed in H. rewrite Hk in H.
    injection H as <-. cbn. apply throttle_scale_down, Ht.
  - apply (adjusted_then_kept MaxThrottle obs
             [steering_moved; throttle_moved; dpadx_moved; dpady_moved;
              option_pressed; circle_pressed] r1_pressed
             [l1_pressed; r2_pressed; l2_pressed; triangle_pressed]);
      [ reflexivity | | exact Hc ].
    intros c1 c2 (_ & _ & Hm) H. unfold r1_pressed in H. rewrite Hk in H.
    injection H as <-. unfold max_throttle_changed, on_throttle_changes.
    cbn. goal_cases; cbn; apply max_throttle_up, Hm.
  - apply (adjusted_then_kept MaxThrottle obs
             [steering_moved; throttle_moved; dpadx_moved; dpady_moved;
              option_pressed; circle_pressed; r1_pressed] l1_pressed
             [r2_pressed; l2_pressed; triangle_pressed]);
      [ reflexivity | | exact Hc ].
    intros c1 c2 (_ & _ & Hm) H. unfold l1_pressed in H. rewrite Hk in H.
    injection H as <-. unfold max_throttle_changed, on_throttle_changes.
    cbn. goal_cases; cbn; apply max_throttle_down, Hm.
Qed.

(** Over a sequence: in range throughout; a scale that no observation
    adjusted is the one it was, an adjusted one is rounded. *)
Lemma apply_all_scales obss c c' :
  scales_in_range c -> apply_all c obss = Ok c' ->
  scales_in_range c' /\
  forall k, if existsb (adjusts k) obss then two_decimals (scale_of k c')
            else scale_of k c' = scale_of k c.
Proof.
  revert c. induction obss as [|obs obss IH]; intros c Hc; cbn [apply_all existsb].
  - intros [= ->]. split; [ exact Hc | reflexivity ].
  - destruct (apply obs c) as [c1|e] eqn:E; [ | discriminate ]. intros H.
    destruct (apply_scale_rel _ _ _ E Hc) as [Hc1 _].
    destruct (IH c1 Hc1 H) as [Hc' K]. split; [ exact Hc' | ]. intros k.
    specialize (K k). destruct (adjusts k obs) eqn:Hk; cbn [orb].
    + destruct (existsb (adjusts k) obss); [ exact K | ].
      rewrite K. exact (apply_adjusting k obs c c1 Hk Hc E).
    + destruct (existsb (adjusts k) obss); [ exact K | ].
      rewrite K. exact (apply_not_adjusting k obs c c1 Hk E).
Qed.

(** C7.  From a state whose steering_scale and max_throttle are within
    [0.0, 1.0] and whose throttle_scale is within [-1.0, 0.0], the body
    handles any sequence of observations (each axis name coming with its
    value) and returns a state in which the three are within the same
    ranges.  A scale that some observation of the sequence adjusted -- the
    d-pad x axis for steering_scale, the d-pad y axis and the 'r2' and 'l2'
    buttons for throttle_scale, the 'r1' and 'l1' buttons for max_throttle
    -- is a float that [round(_, 2)] returns unchanged; a scale that none
    adjusted is the one the state started with. *)
Theorem scales_stay_in_range (c : JoystickController) (obss : list Observation) :
  scales_in_range c ->
  Forall axis_has_value obss ->
  exists c',
    apply_all c obss = Ok c' /\
    in_range 0 1 (steering_scale c') = true /\
    in_range (-1) 0 (throttle_scale c') = true /\
    in_range 0 1 (max_throttle c') = true /\
    forall k, if existsb (adjusts k) obss then two_decimals (scale_of k c')
              else scale_of k c' = scale_of k c.
Proof.
  intros Hc Hobs. destruct (apply_all_total obss c Hobs) as [c' H].
  exists c'. split; [ exact H | ].
  destruct (apply_all_scales obss c c' Hc H) as [(Hs & Ht & Hm) K].
  repeat (split; [ assumption | ]). exact K.
Qed.

(** From the constructor's defaults (1.0, -1.0, 1.0) the sample
    adjustments end at steering_scale 0.95, throttle_scale -0.95 and
    max_throttle 0.99. *)
Lemma scales_stay_in_range_witness :
  exists c',
    apply_all JoystickController_default sample_adjustments = Ok c' /\
    in_range 0 1 (steering_scale c') = true /\
    in_range (-1) 0 (throttle_scale c') = true /\
    in_range 0 1 (max_throttle c') = true /\
    steering_scale c' = 0.95%float /\ throttle_scale c' = (-0.95)%float /\
    max_throttle c' = 0.99%float /\
    two_decimals (steering_scale c').
Proof.
  destruct (scales_stay_in_range JoystickController_default sample_adjustments)
    as (c' & Happ & Hs & Ht & Hm & K).
  - repeat split; reflexivity.
  - unfold sample_adjustments.
    repeat (apply List.Forall_cons;
            [ first [ left; reflexivity | right; eexists; reflexivity ] | ]).
    apply List.Forall_nil.
  - exists c'. split; [ exact Happ | ].
    repeat (split; [ assumption | ]).
    pose proof (K SteeringScale) as K0.
    assert (Hc' : Ok c' = apply_all JoystickController_default sample_adjustments)
      by (symmetry; exact Happ).
    vm_compute in Hc'. injection Hc' as ->.
    repeat (split; [ reflexivity | ]). exact K0.
Defined.

(** Five presses of 'r1' from max_throttle 0.0 give 0.05. *)
Example max_throttle_up_five_times :
  exists c',
    apply_all (JoystickController_new 0 0 "rx" "ly" 1 (-1) true)
      (repeat (button_changed "r1" 1) 5) = Ok c' /\
    max_throttle c' = 0.05%float.
Proof. eexists. split; vm_compute; reflexivity. Qed.

(** * Further properties *)

(** ** Reads of other lengths *)

Lemma unpack_IhBB_length evbuf :
  length evbuf <> 8%nat -> unpack_IhBB evbuf = Raise StructError.
Proof.
  intros H. unfold unpack_IhBB.
  destruct evbuf as [|b0 [|b1 [|b2 [|b3 [|b4 [|b5 [|b6 [|b7 [|]]]]]]]]];
    try reflexivity.
  cbn in H. congruence.
Qed.

(** X1.  A read that yields nothing is not an event: [poll] returns the
    four [None] and the iteration changes nothing.  A read of any other
    length than eight makes [struct.unpack] raise, before [poll] has
    touched the caches, and the iteration ends with that exception. *)
Theorem poll_partial_read :
  (forall (c : JoystickController) (js : Joystick),
     poll js [] = (js, Ok no_observation) /\
     update_step (c, js) [] = Ok (c, js)) /\
  (forall (c : JoystickController) (js : Joystick) (evbuf : list byte),
     evbuf <> [] -> length evbuf <> 8%nat ->
     poll js evbuf = (js, Raise StructError) /\
     update_step (c, js) evbuf = Raise StructError).
Proof.
  split.
  - intros c js. split; reflexivity.
  - intros c js evbuf Hne Hlen.
    assert (Hp : poll js evbuf = (js, Raise StructError)).
    { unfold poll. destruct evbuf as [|b0 rest]; [ congruence | ].
      rewrite (unpack_IhBB_length _ Hlen). reflexivity. }
    split; [ exact Hp | ]. unfold update_step. cbn [snd]. rewrite Hp. reflexivity.
Qed.

Lemma poll_partial_read_witness :
  poll ps4 [x01; x02; x03]%byte = (ps4, Raise StructError) /\
  update_step (JoystickController_default, ps4) [x01; x02; x03]%byte
    = Raise StructError.
Proof.
  apply (proj2 poll_partial_read JoystickController_default ps4).
  - discriminate.
  - cbn. lia.
Defined.

(** ** The record layout *)

Lemma byte_to_N_inj (a b : byte) : Byte.to_N a = Byte.to_N b -> a = b.
Proof.
  intros H. pose proof (Byte.of_to_N a) as Ha. rewrite H, Byte.of_to_N in Ha.
  congruence.
Qed.

Lemma byte_value_inj (a b : byte) :
  Z.of_N (Byte.to_N a) = Z.of_N (Byte.to_N b) -> a = b.
Proof. intros H. apply byte_to_N_inj. lia. Qed.

Lemma to_int16_inj u u' :
  0 <= u < 65536 -> 0 <= u' < 65536 -> to_int16 u = to_int16 u' -> u = u'.
Proof.
  unfold to_int16. intros Hu Hu'.
  destruct (Z.ltb_spec u 32768), (Z.ltb_spec u' 32768); lia.
Qed.

(** X2.  [struct.unpack('IhBB', _)] is a one-to-one correspondence between
    the 8-byte records and the tuples (time, value, type, number) with
    time below 2^32, value from -32768 to 32767, type and number below
    256: the fields it returns are within these widths, two records with
    the same fields are the same record, and every such tuple is the
    reading of a record. *)
Theorem unpack_IhBB_bijective :
  (forall evbuf tval value typev number,
     unpack_IhBB evbuf = Ok (tval, value, typev, number) ->
     length evbuf = 8%nat /\ 0 <= tval < 2 ^ 32 /\ -32768 <= value <= 32767 /\
     0 <= typev < 256 /\ 0 <= number < 256) /\
  (forall evbuf evbuf' fields,
     unpack_IhBB evbuf = Ok fields -> unpack_IhBB evbuf' = Ok fields ->
     evbuf = evbuf') /\
  (forall tval value typev number,
     0 <= tval < 2 ^ 32 -> -32768 <= value <= 32767 ->
     0 <= typev < 256 -> 0 <= number < 256 ->
     exists evbuf, unpack_IhBB evbuf = Ok (tval, value, typev, number)).
Proof.
  split; [ | split ].
  - intros evbuf tval value typev number H.
    exact (unpack_IhBB_range _ _ _ _ _ H).
  - intros evbuf evbuf' fields. unfold unpack_IhBB.
    destruct evbuf as [|b0 [|b1 [|b2 [|b3 [|b4 [|b5 [|b6 [|b7 [|]]]]]]]]];
      try discriminate.
    destruct evbuf' as [|d0 [|d1 [|d2 [|d3 [|d4 [|d5 [|d6 [|d7 [|]]]]]]]]];
      try discriminate.
    intros [= <-]. unfold le_uint. cbn [fold_right]. intros [= Ht Hv Hty Hn].
    pose proof (byte_to_Z_range b0). pose proof (byte_to_Z_range b1).
    pose proof (byte_to_Z_range b2). pose proof (byte_to_Z_range b3).
    pose proof (byte_to_Z_range b4). pose proof (byte_to_Z_range b5).
    pose proof (byte_to_Z_range b6). pose proof (byte_to_Z_range b7).
    pose proof (byte_to_Z_range d0). pose proof (byte_to_Z_range d1).
    pose proof (byte_to_Z_range d2). pose proof (byte_to_Z_range d3).
    pose proof (byte_to_Z_range d4). pose proof (byte_to_Z_range d5).
    pose proof (byte_to_Z_range d6). pose proof (byte_to_Z_range d7).
    apply to_int16_inj in Hv; [ | lia | lia ].
    rewrite (byte_value_inj b0 d0), (byte_value_inj b1 d1), (byte_value_inj b2 d2),
      (byte_value_inj b3 d3), (byte_value_inj b4 d4), (byte_value_inj b5 d5),
      (byte_value_inj b6 d6), (byte_value_inj b7 d7) by lia.
    reflexivity.
  - intros tval value typev number Ht Hv Hty Hn.
    exists (pack_IhBB tval value typev number). now apply unpack_pack.
Qed.

Lemma unpack_IhBB_bijective_witness :
  exists evbuf, unpack_IhBB evbuf = Ok (7, -32768, 0x02, 3).
Proof.
  apply (proj2 (proj2 unpack_IhBB_bijective)); lia.
Defined.

(** ** The capability tables *)

Lemma init_axis_map rep :
  axis_map (init Joystick_new rep)
  = axis_name <$> take (Z.to_nat (num_axes rep)) (axmap rep).
Proof.
  unfold init. rewrite init_button_fold_axis_map, init_axis_fold_axis_map.
  reflexivity.
Qed.

Lemma init_button_map rep :
  button_map (init Joystick_new rep)
  = button_name <$> take (Z.to_nat (num_buttons rep)) (btnmap rep).
Proof.
  unfold init. rewrite init_button_fold_button_map, init_axis_fold_button_map.
  reflexivity.
Qed.

Lemma all_from_spec fuel from p :
  all_from fuel from p = true ->
  forall n, from <= n < from + Z.of_nat fuel -> p n = true.
Proof.
  revert from. induction fuel as [|fuel IH]; intros from H n Hn; [ lia | ].
  cbn [all_from] in H. apply andb_true_iff in H as [H0 H].
  destruct (Z.eq_dec n from) as [->|Hne]; [ exact H0 | ].
  apply (IH (from + 1) H). lia.
Qed.

Lemma placeholders_read_back :
  all_from (Z.to_nat 256) 0 (fun n => placeholder_id (unknown_axis n) =? n) &&
  all_from (Z.to_nat 65536) 0 (fun n => placeholder_id (unknown_button n) =? n)
  = true.
Proof. vm_compute. reflexivity. Qed.

Lemma unknown_axis_inj a b :
  0 <= a < 256 -> 0 <= b < 256 -> unknown_axis a = unknown_axis b -> a = b.
Proof.
  intros Ha Hb H. pose proof placeholders_read_back as Hr.
  apply andb_true_iff in Hr as [Hr _].
  pose proof (all_from_spec _ _ _ Hr a ltac:(lia)) as Ea.
  pose proof (all_from_spec _ _ _ Hr b ltac:(lia)) as Eb.
  apply Z.eqb_eq in Ea, Eb. rewrite <- Ea, <- Eb, H. reflexivity.
Qed.

Lemma unknown_button_inj a b :
  0 <= a < 65536 -> 0 <= b < 65536 -> unknown_button a = unknown_button b -> a = b.
Proof.
  intros Ha Hb H. pose proof placeholders_read_back as Hr.
  apply andb_true_iff in Hr as [_ Hr].
  pose proof (all_from_spec _ _ _ Hr a ltac:(lia)) as Ea.
  pose proof (all_from_spec _ _ _ Hr b ltac:(lia)) as Eb.
  apply Z.eqb_eq in Ea, Eb. rewrite <- Ea, <- Eb, H. reflexivity.
Qed.

(** The names of the two dictionaries: pairwise different, none empty,
    none shaped like a placeholder. *)
Lemma axis_names_entries a s :
  axis_names !! a = Some s ->
  In (a, s) [ (0x00, "lx"); (0x01, "ly"); (0x02, "l2"); (0x03, "rx");
              (0x04, "ry"); (0x05, "r2"); (0x10, "dpadx"); (0x11, "dpady") ]%string.
Proof.
  intros H. apply elem_of_list_to_map_2 in H. apply list_elem_of_In in H. exact H.
Qed.

Lemma button_names_entries b s :
  button_names !! b = Some s ->
  In (b, s) [ (0x130, "cross"); (0x131, "circle"); (0x133, "triangle");
              (0x134, "square"); (0x136, "l1"); (0x137, "r1"); (0x138, "l2");
              (0x139, "r2"); (0x13a, "share"); (0x13b, "options"); (0x13c, "ps");
              (0x13d, "thumbl"); (0x13e, "thumbr") ]%string.
Proof.
  intros H. apply elem_of_list_to_map_2 in H. apply list_elem_of_In in H. exact H.
Qed.

Ltac table_cases H :=
  cbn [In] in H;
  repeat (destruct H as [H|H]; [ simplify_eq | ]); try destruct H.

Lemma axis_name_inj a b :
  0 <= a < 256 -> 0 <= b < 256 -> axis_name a = axis_name b -> a = b.
Proof.
  intros Ha Hb. unfold axis_name.
  destruct (axis_names !! a) as [s|] eqn:Ea, (axis_names !! b) as [t|] eqn:Eb;
    cbv [default from_option id].
  - intros Hst. subst t. apply axis_names_entries in Ea, Eb.
    table_cases Ea; table_cases Eb; reflexivity.
  - intros Hs. subst s. apply axis_names_entries in Ea. table_cases Ea; discriminate.
  - intros Ht. subst t. apply axis_names_entries in Eb. table_cases Eb; discriminate.
  - now apply unknown_axis_inj.
Qed.

Lemma button_name_inj a b :
  0 <= a < 65536 -> 0 <= b < 65536 -> button_name a = button_name b -> a = b.
Proof.
  intros Ha Hb. unfold button_name.
  destruct (button_names !! a) as [s|] eqn:Ea, (button_names !! b) as [t|] eqn:Eb;
    cbv [default from_option id].
  - intros Hst. subst t. apply button_names_entries in Ea, Eb.
    table_cases Ea; table_cases Eb; reflexivity.
  - intros Hs. subst s. apply button_names_entries in Ea. table_cases Ea; discriminate.
  - intros Ht. subst t. apply button_names_entries in Eb. table_cases Eb; discriminate.
  - now apply unknown_button_inj.
Qed.

Lemma axis_name_nonempty a : axis_name a <> ""%string.
Proof.
  unfold axis_name. destruct (axis_names !! a) as [s|] eqn:Ea; cbv [default from_option id].
  - apply axis_names_entries in Ea. table_cases Ea; discriminate.
  - discriminate.
Qed.

Lemma button_name_nonempty b : button_name b <> ""%string.
Proof.
  unfold button_name. destruct (button_names !! b) as [s|] eqn:Eb; cbv [default from_option id].
  - apply button_names_entries in Eb. table_cases Eb; discriminate.
  - discriminate.
Qed.

(** X3.  [init] fills the two tables in the order of the device's report:
    entry [i] of a table is the name of the [i]-th reported id, the name
    of the dictionary or the placeholder written from the id, for the
    first [num] ids of the buffer, and the cache holds 0.0 (or 0) under
    that name. *)
Theorem init_tables_follow_report (rep : DeviceReport) :
  let js := init Joystick_new rep in
  length (axis_map js)
    = Nat.min (Z.to_nat (num_axes rep)) (length (axmap rep)) /\
  length (button_map js)
    = Nat.min (Z.to_nat (num_buttons rep)) (length (btnmap rep)) /\
  (forall (i : nat) (axis : Z),
     (i < Z.to_nat (num_axes rep))%nat -> axmap rep !! i = Some axis ->
     axis_map js !! i = Some (default (unknown_axis axis) (axis_names !! axis)) /\
     axis_states js !! default (unknown_axis axis) (axis_names !! axis)
       = Some 0%float) /\
  (forall (i : nat) (btn : Z),
     (i < Z.to_nat (num_buttons rep))%nat -> btnmap rep !! i = Some btn ->
     button_map js !! i = Some (default (unknown_button btn) (button_names !! btn)) /\
     button_states js !! default (unknown_button btn) (button_names !! btn)
       = Some 0).
Proof.
  intros js. destruct (init_caches rep) as [Hax Hbt]. fold js in Hax, Hbt.
  unfold js. rewrite init_axis_map, init_button_map.
  rewrite !length_fmap, !length_take.
  split; [ reflexivity | ]. split; [ reflexivity | ]. split.
  - intros i axis Hi Hl.
    assert (Hm : (axis_name <$> take (Z.to_nat (num_axes rep)) (axmap rep)) !! i
                 = Some (axis_name axis)).
    { rewrite list_lookup_fmap, lookup_take_lt by exact Hi. now rewrite Hl. }
    split; [ exact Hm | ]. apply Hax. unfold js. rewrite init_axis_map.
    eapply list_elem_of_lookup_2, Hm.
  - intros i btn Hi Hl.
    assert (Hm : (button_name <$> take (Z.to_nat (num_buttons rep)) (btnmap rep)) !! i
                 = Some (button_name btn)).
    { rewrite list_lookup_fmap, lookup_take_lt by exact Hi. now rewrite Hl. }
    split; [ exact Hm | ]. apply Hbt. unfold js. rewrite init_button_map.
    eapply list_elem_of_lookup_2, Hm.
Qed.

Lemma init_tables_follow_report_witness :
  axis_map ps4 !! 6%nat = Some "dpadx"%string /\
  axis_states ps4 !! "dpadx"%string = Some 0%float.
Proof.
  destruct (init_tables_follow_report ps4_report) as (_ & _ & Hax & _).
  apply (Hax 6%nat 0x10).
  - cbn. lia.
  - reflexivity.
Defined.

(** X4.  Different hardware ids never share a name: the dictionaries and
    the placeholders ['unknown(0x..)'] give pairwise different names to
    the axis ids 0..255 and to the button ids 0..65535.  So a device whose
    report lists each id once gets tables without a repeated name, and
    no two of its axes (or buttons) share a cache entry. *)
Theorem table_names_distinct :
  (forall a b, 0 <= a < 256 -> 0 <= b < 256 ->
     default (unknown_axis a) (axis_names !! a)
       = default (unknown_axis b) (axis_names !! b) -> a = b) /\
  (forall a b, 0 <= a < 65536 -> 0 <= b < 65536 ->
     default (unknown_button a) (button_names !! a)
       = default (unknown_button b) (button_names !! b) -> a = b) /\
  (forall rep : DeviceReport,
     Forall (fun a => 0 <= a < 256) (axmap rep) ->
     Forall (fun b => 0 <= b < 65536) (btnmap rep) ->
     NoDup (take (Z.to_nat (num_axes rep)) (axmap rep)) ->
     NoDup (take (Z.to_nat (num_buttons rep)) (btnmap rep)) ->
     NoDup (axis_map (init Joystick_new rep)) /\
     NoDup (button_map (init Joystick_new rep))).
Proof.
  split; [ exact axis_name_inj | ]. split; [ exact button_name_inj | ].
  intros rep Hax Hbt Nax Nbt. rewrite init_axis_map, init_button_map. split.
  - apply NoDup_fmap_2_strong; [ | exact Nax ].
    intros a b Ha Hb. rewrite Forall_forall in Hax.
    apply axis_name_inj; apply Hax; eapply subseteq_take; eassumption.
  - apply NoDup_fmap_2_strong; [ | exact Nbt ].
    intros a b Ha Hb. rewrite Forall_forall in Hbt.
    apply button_name_inj; apply Hbt; eapply subseteq_take; eassumption.
Qed.

Lemma table_names_distinct_witness :
  NoDup (axis_map ps4) /\ NoDup (button_map ps4).
Proof.
  apply (proj2 (proj2 table_names_distinct) ps4_report).
  - apply Forall_forall. intros a Ha.
    apply elem_of_app in Ha as [Ha|Ha].
    + repeat (apply elem_of_cons in Ha as [->|Ha]; [ lia | ]).
      apply elem_of_nil in Ha as [].
    + apply elem_of_replicate in Ha as [-> _]. lia.
  - apply Forall_forall. intros a Ha.
    apply elem_of_app in Ha as [Ha|Ha].
    + repeat (apply elem_of_cons in Ha as [->|Ha]; [ lia | ]).
      apply elem_of_nil in Ha as [].
    + apply elem_of_replicate in Ha as [-> _]. lia.
  - apply (bool_decide_unpack _). vm_compute. exact I.
  - apply (bool_decide_unpack _). vm_compute. exact I.
Defined.

(** ** The caches and the tables *)

Lemma caches_match_new : caches_match_tables Joystick_new.
Proof. split; cbn; apply dom_empty_L. Qed.

Lemma init_axis_caches js axis :
  caches_match_tables js -> caches_match_tables (init_axis js axis).
Proof.
  intros [Ha Hb]. split; unfold init_axis; cbn [axis_states axis_map button_states button_map].
  - rewrite dom_insert_L, list_to_set_app_L, Ha. cbn.
    rewrite (right_id_L ∅ (∪)). apply (comm_L (∪)).
  - exact Hb.
Qed.

Lemma init_button_caches js btn :
  caches_match_tables js -> caches_match_tables (init_button js btn).
Proof.
  intros [Ha Hb]. split; unfold init_button; cbn [axis_states axis_map button_states button_map].
  - exact Ha.
  - rewrite dom_insert_L, list_to_set_app_L, Hb. cbn.
    rewrite (right_id_L ∅ (∪)). apply (comm_L (∪)).
Qed.

Lemma init_caches_match rep : caches_match_tables (init Joystick_new rep).
Proof.
  unfold init.
  assert (H1 : forall axes js, caches_match_tables js ->
                 caches_match_tables (fold_left init_axis axes js)).
  { induction axes as [|a axes IH]; intros js Hjs; cbn [fold_left]; [ exact Hjs | ].
    apply IH, init_axis_caches, Hjs. }
  assert (H2 : forall btns js, caches_match_tables js ->
                 caches_match_tables (fold_left init_button btns js)).
  { induction btns as [|b btns IH]; intros js Hjs; cbn [fold_left]; [ exact Hjs | ].
    apply IH, init_button_caches, Hjs. }
  apply H2, H1, caches_match_new.
Qed.

Lemma list_index_elem {A} (l : list A) number x :
  list_index l number = Ok x -> x ∈ l.
Proof.
  unfold list_index. destruct (l !! Z.to_nat number) as [y|] eqn:E; [ | discriminate ].
  intros [= <-]. eapply list_elem_of_lookup_2, E.
Qed.

Lemma poll_button_caches_match js value typev number :
  caches_match_tables js ->
  caches_match_tables (fst (poll_button js value typev number)).
Proof.
  intros [Ha Hb]. unfold poll_button.
  destruct (Z.land typev 1 =? 0); [ split; assumption | ].
  destruct (list_index (button_map js) number) as [btn|e] eqn:E; [ | split; assumption ].
  apply list_index_elem in E.
  destruct (truthy btn); [ | split; assumption ].
  split; cbn [fst axis_states axis_map button_states button_map]; [ exact Ha | ].
  rewrite dom_insert_L, Hb. apply subseteq_union_1_L.
  apply singleton_subseteq_l, elem_of_list_to_set, E.
Qed.

Lemma poll_axis_caches_match js value typev number :
  caches_match_tables js ->
  caches_match_tables (fst (poll_axis js value typev number)).
Proof.
  intros [Ha Hb]. unfold poll_axis.
  destruct (Z.land typev 2 =? 0); [ split; assumption | ].
  destruct (list_index (axis_map js) number) as [ax|e] eqn:E; [ | split; assumption ].
  apply list_index_elem in E.
  destruct (truthy ax); [ | split; assumption ].
  split; cbn [fst axis_states axis_map button_states button_map]; [ | exact Hb ].
  rewrite dom_insert_L, Ha. apply subseteq_union_1_L.
  apply singleton_subseteq_l, elem_of_list_to_set, E.
Qed.

Lemma poll_caches_match js evbuf :
  caches_match_tables js -> caches_match_tables (fst (poll js evbuf)).
Proof.
  intros Hjs. unfold poll. destruct evbuf as [|b0 rest]; [ exact Hjs | ].
  destruct (unpack_IhBB _) as [[[[tval value] typev] number]|e]; [ | exact Hjs ].
  destruct (negb _); [ exact Hjs | ].
  pose proof (poll_button_caches_match js value typev number Hjs) as H1.
  destruct (poll_button js value typev number) as [js1 [[b bs]|e]]; [ | exact H1 ].
  cbn [fst] in H1.
  pose proof (poll_axis_caches_match js1 value typev number H1) as H2.
  destruct (poll_axis js1 value typev number) as [js2 [[a av]|e]]; exact H2.
Qed.

Lemma polls_fst_caches_match js reads :
  caches_match_tables js -> caches_match_tables (fst (polls js reads)).
Proof.
  revert js. induction reads as [|evbuf reads IH]; intros js Hjs; cbn [polls].
  - exact Hjs.
  - pose proof (poll_caches_match js evbuf Hjs) as H1.
    destruct (poll js evbuf) as [js1 [obs|e]]; cbn [fst] in H1; [ | exact H1 ].
    pose proof (IH js1 H1) as H2.
    destruct (polls js1 reads) as [js2 [obss|e]]; exact H2.
Qed.

(** X5.  The caches never hold a name that is not in the tables, nor miss
    one that is: after [init] and any run of [poll] calls, the last of
    which may have raised, the keys of [axis_states] are exactly the
    entries of [axis_map] and the keys of [button_states] exactly those of
    [button_map], and the tables are those [init] built. *)
Theorem caches_keys_are_table_names (rep : DeviceReport) (reads : list (list byte)) :
  let js' := fst (polls (init Joystick_new rep) reads) in
  dom (axis_states js') = list_to_set (axis_map js') /\
  dom (button_states js') = list_to_set (button_map js') /\
  axis_map js' = axis_map (init Joystick_new rep) /\
  button_map js' = button_map (init Joystick_new rep).
Proof.
  intros js'.
  destruct (polls_fst_caches_match _ reads (init_caches_match rep)) as [Ha Hb].
  split; [ exact Ha | ]. split; [ exact Hb | ].
  unfold js'. generalize (init Joystick_new rep). clear. intros js. revert js.
  induction reads as [|evbuf reads IH]; intros js; cbn [polls]; [ auto | ].
  pose proof (poll_keeps_maps js evbuf) as [Hm1 Hm2].
  destruct (poll js evbuf) as [js1 [obs|e]]; cbn [fst] in *; [ | auto ].
  destruct (IH js1) as [I1 I2].
  destruct (polls js1 reads) as [js2 [obss|e]]; cbn [fst] in *; split; congruence.
Qed.

(** ** Records within the tables *)

Lemma init_names_truthy rep :
  Forall (fun name => truthy name = true) (axis_map (init Joystick_new rep)) /\
  Forall (fun name => truthy name = true) (button_map (init Joystick_new rep)).
Proof.
  rewrite init_axis_map, init_button_map. split; apply Forall_fmap, Forall_forall;
    intros x _; cbn; apply truthy_nonempty;
    [ apply axis_name_nonempty | apply button_name_nonempty ].
Qed.

Lemma list_index_in_range {A} (l : list A) number :
  0 <= number < Z.of_nat (length l) -> exists x, list_index l number = Ok x /\ x ∈ l.
Proof.
  intros H. unfold list_index.
  destruct (lookup_lt_is_Some_2 l (Z.to_nat number) ltac:(lia)) as [x Hx].
  rewrite Hx. exists x. split; [ reflexivity | eapply list_elem_of_lookup_2, Hx ].
Qed.

(** On a joystick whose table entries are non-empty names, a decoded
    record is handled without exception exactly when it is an
    initialization event or its indices are within the tables. *)
Lemma step_outcome js c evbuf tval value typev number :
  Forall (fun name => truthy name = true) (axis_map js) ->
  Forall (fun name => truthy name = true) (button_map js) ->
  unpack_IhBB evbuf = Ok (tval, value, typev, number) ->
  if negb (Z.land typev 0x80 =? 0) || indices_in_tables js typev number
  then exists c' js', update_step (c, js) evbuf = Ok (c', js')
  else update_step (c, js) evbuf = Raise IndexError.
Proof.
  intros Tax Tbt Hun.
  pose proof (unpack_IhBB_range _ _ _ _ _ Hun) as (_ & _ & _ & _ & Hnum).
  rewrite Forall_forall in Tax, Tbt.
  unfold update_step, poll. cbn [snd fst].
  destruct evbuf as [|b0 rest]; [ discriminate | ]. rewrite Hun.
  destruct (Z.land typev 128 =? 0) eqn:H80; cbn [negb orb].
  2:{ rewrite apply_no_observation. eauto. }
  unfold indices_in_tables, poll_button.
  destruct (Z.land typev 1 =? 0) eqn:H01; cbn [orb andb].
  - unfold poll_axis. destruct (Z.land typev 2 =? 0) eqn:H02; cbn [orb].
    + rewrite apply_no_observation. eauto.
    + destruct (Z.ltb_spec number (Z.of_nat (length (axis_map js)))) as [Hlt|Hge].
      * destruct (list_index_in_range (axis_map js) number ltac:(lia)) as (ax & -> & Hin).
        rewrite (Tax ax Hin).
        destruct (apply_total {| button := None; button_state := None;
                    axis := Some ax;
                    axis_val := Some (Py.float_of_int value / 32767)%float |} c)
          as [c' ->]; [ right; eexists; reflexivity | eauto ].
      * rewrite list_index_out_of_range by lia. reflexivity.
  - destruct (Z.ltb_spec number (Z.of_nat (length (button_map js)))) as [Hlt|Hge];
      cbn [andb].
    2:{ rewrite list_index_out_of_range by lia. reflexivity. }
    destruct (list_index_in_range (button_map js) number ltac:(lia)) as (btn & -> & Hin).
    rewrite (Tbt btn Hin). unfold poll_axis. cbn [axis_map].
    destruct (Z.land typev 2 =? 0) eqn:H02; cbn [orb].
    + destruct (apply_total {| button := Some btn; button_state := Some value;
                  axis := None; axis_val := None |} c)
        as [c' ->]; [ left; reflexivity | eauto ].
    + destruct (Z.ltb_spec number (Z.of_nat (length (axis_map js)))) as [Hlt2|Hge2].
      * destruct (list_index_in_range (axis_map js) number ltac:(lia)) as (ax & -> & Hin2).
        rewrite (Tax ax Hin2).
        destruct (apply_total {| button := Some btn; button_state := Some value;
                    axis := Some ax;
                    axis_val := Some (Py.float_of_int value / 32767)%float |} c)
          as [c' ->]; [ right; eexists; reflexivity | eauto ].
      * rewrite list_index_out_of_range by lia. reflexivity.
Qed.


(** What an iteration that returns leaves: the joystick [poll] left and
    the configuration. *)
Lemma update_step_Ok c js evbuf c1 js1 :
  update_step (c, js) evbuf = Ok (c1, js1) ->
  js1 = fst (poll js evbuf) /\ same_config c c1.
Proof.
  unfold update_step. cbn [fst snd].
  destruct (poll js evbuf) as [js' [obs|e]]; [ | discriminate ].
  destruct (apply obs c) as [c'|e] eqn:Happ; [ | discriminate ].
  intros [= <- <-]. split; [ reflexivity | apply (apply_same_config obs), Happ ].
Qed.

(** X6.  On a joystick set up by [init], what an iteration of the loop
    does with an 8-byte record is decided by the record and the sleep: if
    the record is an initialization event or each index it uses is within
    its table, [poll] and the body return (in particular no name reaches
    the body without its value, so nothing raises TypeError) and the
    iteration ends as [time.sleep(self.poll_delay)] does, returning the
    new state or raising what the sleep raises; otherwise the iteration
    ends with IndexError, before the sleep. *)
Theorem update_iteration_outcome
    (sleep : float -> result unit)
    (rep : DeviceReport) (c : JoystickController) (evbuf : list byte)
    (tval value typev number : Z) :
  unpack_IhBB evbuf = Ok (tval, value, typev, number) ->
  let js := init Joystick_new rep in
  if negb (Z.land typev 0x80 =? 0) || indices_in_tables js typev number
  then exists c' js',
         update_step (c, js) evbuf = Ok (c', js') /\
         update_iteration sleep (c, js) evbuf
           = (sleep (poll_delay c) >>- fun _ => Ok (c', js'))
  else update_iteration sleep (c, js) evbuf = Raise IndexError.
Proof.
  intros Hun js. destruct (init_names_truthy rep) as [Tax Tbt].
  pose proof (step_outcome js c evbuf tval value typev number Tax Tbt Hun) as H.
  destruct (negb (Z.land typev 128 =? 0) || indices_in_tables js typev number).
  - destruct H as (c' & js' & Hstep). exists c', js'. split; [ exact Hstep | ].
    unfold update_iteration. rewrite Hstep. cbn [bind fst].
    apply update_step_Ok in Hstep as [_ (_ & _ & _ & Hd & _)]. rewrite Hd.
    reflexivity.
  - unfold update_iteration. rewrite H. reflexivity.
Qed.

Lemma update_iteration_outcome_witness :
  let late := JoystickController_new (-1) 1 "rx" "ly" 1 (-1) true in
  (exists s', update_iteration sleep_from_zero (JoystickController_default, ps4)
                triangle_down = Ok s') /\
  update_iteration sleep_from_zero (late, ps4) triangle_down = Raise ValueError /\
  update_iteration sleep_from_zero (JoystickController_default, ps4) button_200_down
    = Raise IndexError.
Proof.
  intros late. split; [ | split ].
  - pose proof (update_iteration_outcome sleep_from_zero ps4_report
                  JoystickController_default triangle_down 0 1 0x01 2 eq_refl) as H.
    cbv zeta in H.
    replace (negb (Z.land 1 128 =? 0)
             || indices_in_tables (init Joystick_new ps4_report) 1 2)
      with true in H by (vm_compute; reflexivity).
    destruct H as (c' & js' & _ & H). exists (c', js'). exact H.
  - pose proof (update_iteration_outcome sleep_from_zero ps4_report
                  late triangle_down 0 1 0x01 2 eq_refl) as H.
    cbv zeta in H.
    replace (negb (Z.land 1 128 =? 0)
             || indices_in_tables (init Joystick_new ps4_report) 1 2)
      with true in H by (vm_compute; reflexivity).
    destruct H as (c' & js' & _ & H). exact H.
  - pose proof (update_iteration_outcome sleep_from_zero ps4_report
                  JoystickController_default button_200_down 0 1 0x01 200 eq_refl) as H.
    cbv zeta in H.
    replace (negb (Z.land 1 128 =? 0)
             || indices_in_tables (init Joystick_new ps4_report) 1 200)
      with false in H by (vm_compute; reflexivity).
    exact H.
Defined.

(** ** The polling loop as a whole *)

(** A reflexive and transitive relation that the body respects is
    respected by the loop. *)
Lemma update_rel (R : JoystickController -> JoystickController -> Prop)
    js reads c c' js' :
  (forall c, R c c) ->
  (forall a b c, R a b -> R b c -> R a c) ->
  (forall obs c c', apply obs c = Ok c' -> R c c') ->
  update (c, js) reads = Ok (c', js') -> R c c'.
Proof.
  intros Hrefl Htrans Hbody. revert c js.
  induction reads as [|evbuf reads IH]; intros c js; cbn [update fst].
  - intros [= <- <-]. apply Hrefl.
  - destruct (running c); [ | intros [= <- <-]; apply Hrefl ].
    unfold update_step. cbn [fst snd].
    destruct (poll js evbuf) as [js1 [obs|e]]; [ | discriminate ].
    destruct (apply obs c) as [c1|e] eqn:Happ; [ | discriminate ].
    intros H. apply (Htrans _ c1); [ apply (Hbody obs), Happ | apply (IH c1 js1), H ].
Qed.

(** On a joystick set up by [init] no tuple is a press of 'option', so a
    property that the body keeps on such tuples is kept by the loop. *)
Lemma update_invariant (P : JoystickController -> Prop) rep reads c c' js' :
  (forall obs c c', pressed obs "option" = false -> apply obs c = Ok c' ->
                    P c -> P c') ->
  P c -> update (c, init Joystick_new rep) reads = Ok (c', js') -> P c'.
Proof.
  intros Hbody.
  pose proof (init_no_option_button rep) as Hno.
  generalize dependent (init Joystick_new rep). intros js. revert c js.
  induction reads as [|evbuf reads IH]; intros c js Hno Hc; cbn [update fst].
  - intros [= <- <-]. exact Hc.
  - destruct (running c); [ | intros [= <- <-]; exact Hc ].
    unfold update_step. cbn [fst snd].
    destruct (poll js evbuf) as [js1 [obs|e]] eqn:Hpoll; [ | discriminate ].
    destruct (apply obs c) as [c1|e] eqn:Happ; [ | discriminate ].
    pose proof (poll_keeps_maps js evbuf) as [_ Hb]. rewrite Hpoll in Hb.
    cbn [fst] in Hb. apply (IH c1 js1); [ congruence | ].
    apply (Hbody obs c c1); [ | exact Happ | exact Hc ].
    destruct (pressed obs "option") eqn:Hp; [ exfalso | reflexivity ].
    unfold pressed in Hp. apply andb_true_iff in Hp as [Hp _].
    apply bool_decide_eq_true_1 in Hp.
    pose proof (poll_button_in_map _ _ _ _ _ Hpoll Hp) as Hin.
    rewrite Forall_forall in Hno. exact (Hno _ Hin eq_refl).
Qed.

(** X7.  Whatever the device reports at [init] and whatever records it
    sends afterwards, a controller fresh from the constructor is still in
    mode 'user' when the loop has handled them: [run_threaded] reports
    'user' as its third component. *)
Theorem run_threaded_reports_user_mode
    (rep : DeviceReport) (reads : list (list byte))
    (poll_delay max_throttle : float) (steering_axis throttle_axis : string)
    (steering_scale throttle_scale : float) (auto_record_on_throttle : bool)
    (c' : JoystickController) (js' : Joystick) :
  update (JoystickController_new poll_delay max_throttle steering_axis
            throttle_axis steering_scale throttle_scale auto_record_on_throttle,
          init Joystick_new rep) reads = Ok (c', js') ->
  run_threaded c' = (angle c', throttle c', user, recording c').
Proof.
  intros H. apply update_never_switches_mode in H.
  unfold run_threaded. rewrite H. reflexivity.
Qed.

Lemma run_threaded_reports_user_mode_witness :
  let s := update (JoystickController_default, ps4) [options_down; ly_full; options_down] in
  exists c' js', s = Ok (c', js') /\ run_threaded c' = (0, -1, user, true)%float.
Proof.
  intros s.
  assert (E : s = Ok (set_recording true (set_throttle (-1) JoystickController_default),
                      fst (polls ps4 [options_down; ly_full; options_down])))
    by (vm_compute; reflexivity).
  eexists _, _. split; [ exact E | ].
  rewrite (run_threaded_reports_user_mode ps4_report
             [options_down; ly_full; options_down] 0 1 "rx" "ly" 1 (-1) true _ _ E).
  reflexivity.
Defined.

(** X8.  With [auto_record_on_throttle] set, [recording] equals
    [throttle != 0.0 and mode == 'user'] after every iteration of the loop
    on a joystick set up by [init], once it holds; it holds for a
    controller fresh from the constructor. *)
Theorem auto_record_invariant
    (rep : DeviceReport) (reads : list (list byte))
    (c c' : JoystickController) (js' : Joystick) :
  auto_record_on_throttle c = true ->
  recording c = should_record c ->
  update (c, init Joystick_new rep) reads = Ok (c', js') ->
  recording c' = should_record c'.
Proof.
  intros Ha Hr H.
  apply (update_invariant
           (fun c => auto_record_on_throttle c = true /\ recording c = should_record c)
           rep reads c c' js'); [ | auto | exact H ].
  clear. intros obs c c' Hopt Happ [Ha Hr].
  destruct (apply_record_rel obs c c' Hopt Happ Ha) as (Ha' & Hm & [[Ht Hrec]|Hrec]).
  - split; [ exact Ha' | ]. rewrite Hrec, Hr. unfold should_record.
    rewrite Ht, Hm. reflexivity.
  - split; assumption.
Qed.

Lemma auto_record_invariant_witness :
  let s := update (JoystickController_default, ps4) [ly_full; triangle_down; rx_lowest] in
  exists c' js', s = Ok (c', js') /\ recording c' = should_record c'.
Proof.
  intros s.
  destruct s as [[c' js']|e] eqn:E; [ | vm_compute in E; discriminate ].
  exists c', js'. split; [ reflexivity | ].
  apply (auto_record_invariant ps4_report [ly_full; triangle_down; rx_lowest]
           JoystickController_default c' js'); [ reflexivity | reflexivity | exact E ].
Defined.

(** Every block but the 'circle' one leaves [recording] when the
    auto-record rule is off. *)
Lemma blocks_keep_manual_recording obs :
  Forall (fun blk => forall c c', blk obs c = Ok c' ->
            auto_record_on_throttle c = false ->
            auto_record_on_throttle c' = false /\ recording c' = recording c)
    ([steering_moved; throttle_moved; dpadx_moved; dpady_moved; option_pressed]
       ++ [r1_pressed; l1_pressed; r2_pressed; l2_pressed; triangle_pressed]).
Proof.
  cbn [app].
  each_block ltac:(intros c0 c0' Hblk Ha0; unfold_blocks; block_cases;
                   cbn in *; rewrite ?Ha0 in *; goal_cases; cbn in *;
                   try congruence; auto).
Qed.

(** X9.  With [auto_record_on_throttle] off, [recording] is flipped by a
    press of 'circle' and changed by nothing else: after the body has
    handled a tuple, it is the negation of what it was when the tuple is
    ('circle', 1), and what it was otherwise. *)
Theorem manual_recording_toggle (obs : Observation) (c c' : JoystickController) :
  auto_record_on_throttle c = false ->
  apply obs c = Ok c' ->
  recording c' = (if pressed obs "circle" then negb (recording c) else recording c).
Proof.
  intros Ha. rewrite apply_blocks.
  pose proof (blocks_keep_manual_recording obs) as Hothers.
  apply Forall_app in Hothers as [Hpre Hpost].
  assert (Hkeep : forall bs,
    Forall (fun blk => forall c c', blk obs c = Ok c' ->
              auto_record_on_throttle c = false ->
              auto_record_on_throttle c' = false /\ recording c' = recording c) bs ->
    forall c c', run_blocks obs bs c = Ok c' ->
      auto_record_on_throttle c = false ->
      auto_record_on_throttle c' = false /\ recording c' = recording c).
  { intros bs Hbs.
    apply (run_blocks_rel (fun c c' => auto_record_on_throttle c = false ->
              auto_record_on_throttle c' = false /\ recording c' = recording c));
      [ | | exact Hbs ].
    - intros a Haa. auto.
    - intros a b d Hab Hbd Haa. destruct (Hab Haa) as [Hb1 Hb2].
      destruct (Hbd Hb1) as [Hd1 Hd2]. split; congruence. }
  change blocks with
    ([steering_moved; throttle_moved; dpadx_moved; dpady_moved; option_pressed]
       ++ [circle_pressed]
       ++ [r1_pressed; l1_pressed; r2_pressed; l2_pressed; triangle_pressed]).
  rewrite run_blocks_app.
  destruct (run_blocks obs _ c) as [c1|e] eqn:E1; cbn [bind]; [ | discriminate ].
  rewrite run_blocks_app.
  destruct (run_blocks obs [circle_pressed] c1) as [c2|e] eqn:E2; cbn [bind];
    [ | discriminate ].
  intros E3.
  apply (Hkeep _ Hpre) in E1; [ | exact Ha ]. destruct E1 as [Ha1 Hr1].
  unfold run_blocks in E2. cbn [fold_left bind] in E2. unfold circle_pressed in E2.
  rewrite Ha1 in E2.
  assert (Ha2 : auto_record_on_throttle c2 = false).
  { destruct (pressed obs "circle"); [ destruct (recording c1) | ];
      injection E2 as <-; exact Ha1. }
  apply (Hkeep _ Hpost) in E3; [ | exact Ha2 ]. destruct E3 as [_ Hr3].
  rewrite Hr3, <- Hr1.
  destruct (pressed obs "circle"); [ destruct (recording c1) | ];
    injection E2 as <-; reflexivity.
Qed.

Lemma manual_recording_toggle_witness :
  let c := JoystickController_new 0 1 "rx" "ly" 1 (-1) false in
  apply (button_changed "circle" 1) c = Ok (set_recording true c) /\
  recording (set_recording true c) = negb (recording c).
Proof.
  intros c. split; [ reflexivity | ].
  apply (manual_recording_toggle (button_changed "circle" 1) c (set_recording true c));
    reflexivity.
Defined.

(** Every block keeps the latch property on a tuple that is not a move
    of the throttle axis. *)
Lemma blocks_keep_latched obs :
  Forall (fun blk => forall c c', blk obs c = Ok c' ->
            throttle_axis c' = throttle_axis c /\
            (axis_is obs (throttle_axis c) = false -> latched c -> latched c'))
    blocks.
Proof.
  unfold blocks.
  each_block ltac:(intros c0 c1 Hblk; split;
    [ unfold_blocks; block_cases; goal_cases; reflexivity
    | intros Ha0 L0; unfold latched in *; unfold_blocks; rewrite ?Ha0 in *;
      block_cases; goal_cases; cbn in *; intros; try congruence; auto ]).
Qed.

(** X10.  While the constant-throttle latch is on, the throttle follows
    [max_throttle]: if [throttle] equals [max_throttle] whenever
    [constant_throttle] is set, this is still so after the body has handled
    any tuple that is not a move of the throttle axis -- presses of 'r1',
    'l1' and 'triangle' included. *)
Theorem constant_throttle_follows_max (obs : Observation) (c c' : JoystickController) :
  axis_is obs (throttle_axis c) = false ->
  latched c ->
  apply obs c = Ok c' ->
  latched c'.
Proof.
  intros Hax Hl Happ.
  pose proof (apply_rel
    (fun a b => throttle_axis b = throttle_axis a /\
                (axis_is obs (throttle_axis a) = false -> latched a -> latched b))
    obs) as HR.
  destruct (HR ltac:(intros a; split; auto)
               ltac:(intros a b d [Hab1 Hab2] [Hbd1 Hbd2];
                     split; [ congruence | ]; intros Ha La;
                     apply Hbd2; [ rewrite Hab1; exact Ha | apply Hab2; assumption ])
               (blocks_keep_latched obs) c c' Happ) as [_ Hkeep].
  apply Hkeep; assumption.
Qed.

Lemma constant_throttle_follows_max_witness :
  let c := set_constant_throttle true
             (set_throttle 0.5 (JoystickController_new 0 0.5 "rx" "ly" 1 (-1) true)) in
  exists c', apply (button_changed "r1" 1) c = Ok c' /\ latched c' /\
             throttle c' = 0.51%float.
Proof.
  intros c.
  destruct (apply (button_changed "r1" 1) c) as [c'|e] eqn:E;
    [ | vm_compute in E; discriminate ].
  exists c'. split; [ reflexivity | ]. split.
  - apply (constant_throttle_follows_max (button_changed "r1" 1) c c');
      [ reflexivity | intros _; reflexivity | exact E ].
  - vm_compute in E. injection E as <-. reflexivity.
Defined.

(** The blocks leave [angle] on a tuple that is not a move of the
    steering axis. *)
Lemma blocks_keep_angle obs :
  Forall (fun blk => forall c c', blk obs c = Ok c' ->
            steering_axis c' = steering_axis c /\
            (axis_is obs (steering_axis c) = false -> angle c' = angle c))
    blocks.
Proof.
  unfold blocks.
  each_block ltac:(intros c0 c1 Hblk; split;
    [ unfold_blocks; block_cases; goal_cases; reflexivity
    | intros Ha0; unfold_blocks; rewrite ?Ha0 in *;
      block_cases; goal_cases; reflexivity ]).
Qed.

(** The blocks leave [throttle] on a tuple that is neither a move of the
    throttle axis, nor a press of 'triangle', nor a press of 'r1' or 'l1'
    with the latch on. *)
Lemma blocks_keep_throttle obs :
  pressed obs "triangle" = false ->
  Forall (fun blk => forall c c', blk obs c = Ok c' ->
            throttle_axis c' = throttle_axis c /\
            constant_throttle c' = constant_throttle c /\
            (axis_is obs (throttle_axis c) = false ->
             constant_throttle c = false \/
               (pressed obs "r1" = false /\ pressed obs "l1" = false) ->
             throttle c' = throttle c))
    blocks.
Proof.
  intros Htri. unfold blocks.
  each_block ltac:(intros c0 c1 Hblk; split; [ | split ];
    [ unfold_blocks; rewrite ?Htri in *; block_cases; goal_cases; reflexivity
    | unfold_blocks; rewrite ?Htri in *; block_cases; goal_cases; cbn; congruence
    | intros Ha0 [Hc0|[Hr0 Hl0]]; unfold_blocks; cbn in Hblk;
      rewrite ?Ha0, ?Htri, ?Hc0, ?Hr0, ?Hl0 in *;
      block_cases; goal_cases; cbn in *; try reflexivity; congruence ]).
Qed.

(** X11.  The commands change only on their own events: [angle] is left
    as it was by every tuple that is not a move of the steering axis, and
    [throttle] by every tuple that is neither a move of the throttle axis,
    nor a press of 'triangle', nor a press of 'r1' or 'l1' while the
    constant-throttle latch is on. *)
Theorem commands_change_on_their_events (obs : Observation) (c c' : JoystickController) :
  apply obs c = Ok c' ->
  (axis_is obs (steering_axis c) = false -> angle c' = angle c) /\
  (axis_is obs (throttle_axis c) = false ->
   pressed obs "triangle" = false ->
   constant_throttle c = false \/
     (pressed obs "r1" = false /\ pressed obs "l1" = false) ->
   throttle c' = throttle c).
Proof.
  intros Happ. split.
  - pose proof (apply_rel
      (fun a b => steering_axis b = steering_axis a /\
                  (axis_is obs (steering_axis a) = false -> angle b = angle a))
      obs) as HR.
    destruct (HR ltac:(intros a; split; auto)
                 ltac:(intros a b d [Hab1 Hab2] [Hbd1 Hbd2];
                       split; [ congruence | ]; intros Ha;
                       rewrite Hbd2, Hab2;
                       [ reflexivity | exact Ha | rewrite Hab1; exact Ha ])
                 (blocks_keep_angle obs) c c' Happ) as [_ Hkeep].
    exact Hkeep.
  - intros Hax Htri Hrl.
    pose proof (apply_rel
      (fun a b => throttle_axis b = throttle_axis a /\
                  constant_throttle b = constant_throttle a /\
                  (axis_is obs (throttle_axis a) = false ->
                   constant_throttle a = false \/
                     (pressed obs "r1" = false /\ pressed obs "l1" = false) ->
                   throttle b = throttle a))
      obs) as HR.
    destruct (HR ltac:(intros a; repeat split; auto)
                 ltac:(intros a b d (Hab1 & Hab2 & Hab3) (Hbd1 & Hbd2 & Hbd3);
                       split; [ congruence | ]; split; [ congruence | ];
                       intros Ha Hc; rewrite Hbd3, Hab3;
                       [ reflexivity | exact Ha | exact Hc
                       | rewrite Hab1; exact Ha | rewrite Hab2; exact Hc ])
                 (blocks_keep_throttle obs Htri) c c' Happ) as (_ & _ & Hkeep).
    apply Hkeep; assumption.
Qed.

Lemma commands_change_on_their_events_witness :
  let c := set_angle 0.25 (set_throttle 0.5 JoystickController_default) in
  exists c', apply (button_changed "r1" 1) c = Ok c' /\
             angle c' = angle c /\ throttle c' = throttle c.
Proof.
  intros c.
  destruct (apply (button_changed "r1" 1) c) as [c'|e] eqn:E;
    [ | vm_compute in E; discriminate ].
  exists c'. split; [ reflexivity | ].
  destruct (commands_change_on_their_events (button_changed "r1" 1) c c' E)
    as [Hang Hthr].
  split; [ apply Hang; reflexivity | ].
  apply Hthr; [ reflexivity | reflexivity | left; reflexivity ].
Defined.

(** X12.  The body never assigns the configuration -- the two axis names,
    [auto_record_on_throttle], [poll_delay] -- nor [running]: they are the
    same after any run of the loop, which therefore never stops by itself;
    it handles its reads one after another, so a run over two batches is
    the run over the first followed by the run over the second; and after
    [shutdown] it handles none and leaves the outputs as they are. *)
Theorem loop_runs_until_shutdown
    (c : JoystickController) (js : Joystick) (reads1 reads2 : list (list byte)) :
  (forall c' js', update (c, js) reads1 = Ok (c', js') -> same_config c c') /\
  update (c, js) (reads1 ++ reads2)
    = (update (c, js) reads1 >>- fun s => update s reads2) /\
  update (shutdown c, js) reads1 = Ok (shutdown c, js) /\
  run_threaded (shutdown c) = run_threaded c.
Proof.
  split; [ | split; [ | split ] ].
  - intros c' js'. apply update_rel.
    + intros a. repeat split.
    + unfold same_config. intros a b d (?&?&?&?&?) (?&?&?&?&?).
      repeat split; congruence.
    + apply apply_same_config.
  - revert c js. induction reads1 as [|evbuf reads1 IH]; intros c js.
    + reflexivity.
    + cbn [app update fst]. destruct (running c) eqn:Hrun.
      * destruct (update_step (c, js) evbuf) as [[c1 js1]|e]; [ apply IH | reflexivity ].
      * cbn [bind]. destruct reads2; cbn [update fst]; rewrite ?Hrun; reflexivity.
  - destruct reads1; reflexivity.
  - reflexivity.
Qed.

Lemma loop_runs_until_shutdown_witness :
  let c := JoystickController_default in
  update (c, ps4) ([ly_full] ++ [triangle_down])
    = (update (c, ps4) [ly_full] >>- fun s => update s [triangle_down]) /\
  update (shutdown c, ps4) [ly_full] = Ok (shutdown c, ps4) /\
  run_threaded (shutdown c) = (0, 0, user, false)%float.
Proof.
  intros c.
  destruct (loop_runs_until_shutdown c ps4 [ly_full] [triangle_down])
    as (_ & Happ & Hstop & Hout).
  split; [ exact Happ | ]. split; [ exact Hstop | ]. rewrite Hout. reflexivity.
Defined.

(** ** The commands stay within [-1, 1] *)

Lemma in_range_le1 x : in_range (-1) 1 x = true -> le1 (Prim2SF x).
Proof.
  unfold in_range. intros H. apply andb_true_iff in H as [H0 H1]. revert H0 H1.
  rewrite !leb_spec, Prim2SF_1, Prim2SF_m1. intros H0 H1.
  pose proof (Prim2SF_valid x) as Hv.
  destruct (Prim2SF x) as [s|s| |s m e]; try destruct s; try discriminate.
  - left. exact I.
  - left. exact I.
  - right. cbn [neg_le1].
    apply not_below_minus_one; [ eapply valid_mantissa_lt, Hv | ].
    apply SFleb_not_Gt, H0.
  - left. cbn [pos_le1].
    apply not_above_one; [ eapply valid_mantissa_lt, Hv | ].
    apply SFleb_not_Gt, H1.
Qed.

Lemma le1_bounds s m e :
  le1 (S754_finite s m e) -> e <= 0 /\ Z.pos m <= 2 ^ (- e).
Proof. destruct s; intros [H|H]; cbn in H; tauto. Qed.

Lemma le1_in_range x : le1 (Prim2SF x) -> in_range (-1) 1 x = true.
Proof.
  unfold in_range. rewrite !leb_spec, Prim2SF_1, Prim2SF_m1.
  pose proof (Prim2SF_valid x) as Hv.
  destruct (Prim2SF x) as [s|s| |s m e]; intros H.
  - destruct s; reflexivity.
  - destruct H as [[]|[]].
  - destruct H as [[]|[]].
  - apply le1_bounds in H as [He Hm].
    pose proof (valid_le1_exponent _ _ _ Hv He Hm) as He52. clear Hv.
    unfold SFleb. destruct s; cbn [SFcompare andb].
    + destruct (Z.compare_spec (-52) e) as [<-|Hlt|Hgt]; [ | lia | reflexivity ].
      destruct (Pos.compare_cont Eq 4503599627370496 m) eqn:E; cbn [CompOpp];
        [ reflexivity | | reflexivity ].
      assert (Hlt : 4503599627370496 < Z.pos m) by exact E.
      exfalso. apply (Z.lt_irrefl (Z.pos m)). eapply Z.le_lt_trans; [ exact Hm | exact Hlt ].
    + destruct (Z.compare_spec e (-52)) as [->|Hlt|Hgt]; [ | reflexivity | lia ].
      destruct (Pos.compare_cont Eq m 4503599627370496) eqn:E;
        [ reflexivity | reflexivity | ].
      exfalso. apply Hm. exact E.
Qed.

(** A valid float of magnitude exactly one is 1.0 or -1.0. *)
Lemma valid_one s m e :
  valid_binary (S754_finite s m e) = true ->
  e <= 0 -> Z.pos m = 2 ^ (- e) -> e = -52 /\ m = 4503599627370496%positive.
Proof.
  intros Hv He Hm.
  pose proof (valid_le1_exponent _ _ _ Hv He ltac:(lia)) as He52.
  pose proof (valid_mantissa_lt _ _ _ Hv) as Hlt. rewrite Hm in Hlt.
  apply Z.pow_lt_mono_r_iff in Hlt; [ | lia | lia ].
  assert (e = -52) as -> by lia. split; [ reflexivity | ].
  apply Pos2Z.inj. rewrite Hm. reflexivity.
Qed.

(** The product of two floats of magnitude at most one is one. *)
Lemma mul_le1 a b : le1 (Prim2SF a) -> le1 (Prim2SF b) -> le1 (Prim2SF (a * b)).
Proof.
  rewrite mul_spec.
  pose proof (Prim2SF_valid a) as Va. pose proof (Prim2SF_valid b) as Vb.
  unfold SF64mul, SFmul.
  destruct (Prim2SF a) as [sa|sa| |sa ma ea], (Prim2SF b) as [sb|sb| |sb mb eb];
    intros Ha Hb;
    try (destruct Ha as [[]|[]]; fail); try (destruct Hb as [[]|[]]; fail);
    try (left; exact I).
  apply le1_bounds in Ha as [Hea Hma], Hb as [Heb Hmb].
  assert (Hpa : 0 < 2 ^ (- ea)) by (apply Z.pow_pos_nonneg; lia).
  assert (Hpb : 0 < 2 ^ (- eb)) by (apply Z.pow_pos_nonneg; lia).
  assert (Hpow : 2 ^ (- (ea + eb)) = 2 ^ (- ea) * 2 ^ (- eb)).
  { rewrite <- Z.pow_add_r by lia. f_equal. lia. }
  destruct (Z.eq_dec (Z.pos ma) (2 ^ (- ea))) as [Ea|Na].
  - destruct (Z.eq_dec (Z.pos mb) (2 ^ (- eb))) as [Eb|Nb].
    + destruct (valid_one _ _ _ Va Hea Ea) as [-> ->].
      destruct (valid_one _ _ _ Vb Heb Eb) as [-> ->].
      destruct sa, sb; cbn [xorb];
        [ left | right | right | left ];
        match goal with
        | |- _ ?t =>
            let v := eval vm_compute in t in
            replace t with v by (vm_compute; reflexivity)
        end;
        (split; [ lia | vm_compute; discriminate ]).
    + assert (Hs : signed_le1 (xorb sa sb)
                     (binary_round_aux prec emax (xorb sa sb) (Z.pos (ma * mb))
                        (ea + eb) loc_Exact)).
      { apply binary_round_aux_le1; [ lia | lia | ].
        rewrite Hpow, Pos2Z.inj_mul. nia. }
      destruct (xorb sa sb); [ right | left ]; exact Hs.
  - assert (Hs : signed_le1 (xorb sa sb)
                   (binary_round_aux prec emax (xorb sa sb) (Z.pos (ma * mb))
                      (ea + eb) loc_Exact)).
    { apply binary_round_aux_le1; [ lia | lia | ].
      rewrite Hpow, Pos2Z.inj_mul. nia. }
    destruct (xorb sa sb); [ right | left ]; exact Hs.
Qed.

Lemma mul_in_range a b :
  in_range (-1) 1 a = true -> in_range (-1) 1 b = true ->
  in_range (-1) 1 (a * b) = true.
Proof.
  intros Ha Hb. apply le1_in_range, mul_le1; apply in_range_le1; assumption.
Qed.

Lemma unit_in_range x : in_range 0 1 x = true -> in_range (-1) 1 x = true.
Proof. intros H. apply le1_in_range. left. apply in_unit_le1, H. Qed.

Lemma neg_unit_in_range x : in_range (-1) 0 x = true -> in_range (-1) 1 x = true.
Proof. intros H. apply le1_in_range. right. apply in_neg_unit_le1, H. Qed.

Lemma axis_values_checked :
  all_from (Z.to_nat 65536) (-32768) axis_value_check = true.
Proof. vm_compute. reflexivity. Qed.

Lemma axis_value_range value :
  -32768 <= value <= 32767 ->
  in_range (-1) 1 (Py.float_of_int value / 32767)%float = negb (value =? -32768).
Proof.
  intros Hv.
  pose proof (all_from_spec _ _ _ axis_values_checked value ltac:(lia)) as H.
  unfold axis_value_check in H. apply Bool.eqb_prop in H. exact H.
Qed.

(** The value [poll] returns with an axis name is [value / 32767.0]. *)
Lemma poll_axis_val js evbuf js' obs v :
  poll js evbuf = (js', Ok obs) -> axis_val obs = Some v ->
  exists tval value typev number,
    unpack_IhBB evbuf = Ok (tval, value, typev, number) /\
    v = (Py.float_of_int value / 32767)%float.
Proof.
  unfold poll. destruct evbuf as [|b0 rest]; [ intros [= <- <-]; discriminate | ].
  destruct (unpack_IhBB _) as [[[[tval value] typev] number]|e]; [ | discriminate ].
  destruct (negb _); [ intros [= <- <-]; discriminate | ].
  destruct (poll_button js value typev number) as [js1 [[b bs]|e]]; [ | discriminate ].
  unfold poll_axis.
  destruct (Z.land typev 2 =? 0); [ intros [= <- <-]; discriminate | ].
  destruct (list_index (axis_map js1) number) as [ax|e]; [ | discriminate ].
  destruct (truthy ax); intros [= <- <-]; cbn [axis_val]; [ | discriminate ].
  intros [= <-]. exists tval, value, typev, number. split; reflexivity.
Qed.

(** X13.  The value [poll] returns for an axis is [value / 32767.0] for
    the 16-bit [value] of the record, and it is within [-1, 1] for every
    value but -32768, for which it is below -1. *)
Theorem axis_value_within_unit
    (js js' : Joystick) (evbuf : list byte) (obs : Observation)
    (tval value typev number : Z) (v : float) :
  poll js evbuf = (js', Ok obs) ->
  unpack_IhBB evbuf = Ok (tval, value, typev, number) ->
  axis_val obs = Some v ->
  v = (Py.float_of_int value / 32767)%float /\
  in_range (-1) 1 v = negb (value =? -32768) /\
  (value = -32768 -> (v <? -1)%float = true).
Proof.
  intros Hpoll Hun Hv.
  destruct (poll_axis_val _ _ _ _ _ Hpoll Hv) as (t' & value' & ty' & n' & Hun' & ->).
  rewrite Hun in Hun'. injection Hun' as <- <- <- <-.
  split; [ reflexivity | ].
  pose proof (unpack_IhBB_range _ _ _ _ _ Hun) as (_ & _ & Hval & _).
  split; [ apply axis_value_range, Hval | ].
  intros ->. reflexivity.
Qed.

Lemma axis_value_within_unit_witness :
  (1 = Py.float_of_int 32767 / 32767 /\ in_range (-1) 1 1 = true)%float /\
  in_range (-1) 1 (Py.float_of_int (-32768) / 32767)%float = false.
Proof.
  split.
  - destruct (axis_value_within_unit ps4 (fst (poll ps4 ly_full)) ly_full
                (axis_moved "ly" 1) 0 32767 0x02 1 1) as (H1 & H2 & _);
      [ vm_compute; reflexivity | reflexivity | reflexivity | ].
    split; [ exact H1 | exact H2 ].
  - destruct (axis_value_within_unit ps4 (fst (poll ps4 rx_lowest)) rx_lowest
                (axis_moved "rx" (Py.float_of_int (-32768) / 32767)%float)
                0 (-32768) 0x02 3 (Py.float_of_int (-32768) / 32767)%float)
      as (_ & H2 & _);
      [ vm_compute; reflexivity | reflexivity | reflexivity | ].
    exact H2.
Defined.

(** Each block keeps the commands within [-1, 1] when the scales are in
    their ranges and the axis value is within [-1, 1]. *)
Lemma blocks_commands obs :
  (forall v, axis_val obs = Some v -> in_range (-1) 1 v = true) ->
  Forall (fun blk => forall c c', blk obs c = Ok c' ->
            scales_in_range c -> commands_in_range c -> commands_in_range c')
    blocks.
Proof.
  intros Hv. unfold blocks.
  each_block ltac:(intros c0 c1 Hblk (Hs & Ht & Hm) [Ha Hth];
    pose proof (unit_in_range _ Hs) as Hs';
    pose proof (neg_unit_in_range _ Ht) as Ht';
    pose proof (unit_in_range _ Hm) as Hm';
    pose proof (unit_in_range _ (proj1 (max_throttle_up _ Hm))) as Hup;
    pose proof (unit_in_range _ (proj1 (max_throttle_down _ Hm))) as Hdn;
    unfold_blocks; block_cases; unfold commands_in_range; goal_cases; cbn;
    (split; try assumption; try reflexivity; repeat apply mul_in_range; auto)).
Qed.

Lemma apply_commands obs c c' :
  (forall v, axis_val obs = Some v -> in_range (-1) 1 v = true) ->
  apply obs c = Ok c' ->
  scales_in_range c -> commands_in_range c ->
  scales_in_range c' /\ commands_in_range c'.
Proof.
  intros Hv. revert c c'.
  apply (apply_rel (fun c c' => scales_in_range c -> commands_in_range c ->
                                scales_in_range c' /\ commands_in_range c')).
  - auto.
  - intros a b d Hab Hbd Hs Hc. destruct (Hab Hs Hc) as [Hs1 Hc1]. auto.
  - pose proof (blocks_scale_rel obs) as H1.
    pose proof (blocks_commands obs Hv) as H2.
    rewrite Forall_forall in H1, H2. apply Forall_forall.
    intros blk Hin c c' Hblk Hs Hc. split.
    + apply (H1 blk Hin c c' Hblk Hs).
    + apply (H2 blk Hin c c' Hblk Hs Hc).
Qed.

(** X14.  The commands stay within [-1, 1]: from a state whose three
    scales are in their ranges and whose [angle] and [throttle] are within
    [-1, 1] -- a controller built with the default arguments is one -- the
    loop ends in such a state, whatever joystick it polls, provided no
    record it reads carries the value -32768. *)
Theorem commands_stay_in_range
    (js : Joystick) (reads : list (list byte))
    (c c' : JoystickController) (js' : Joystick) :
  scales_in_range c -> commands_in_range c ->
  forallb above_lowest reads = true ->
  update (c, js) reads = Ok (c', js') ->
  in_range (-1) 1 (angle c') = true /\ in_range (-1) 1 (throttle c') = true /\
  scales_in_range c'.
Proof.
  revert c js. induction reads as [|evbuf reads IH]; intros c js Hs Hc Hr;
    cbn [update fst].
  - intros [= <- <-]. destruct Hc. auto.
  - destruct (running c); [ | intros [= <- <-]; destruct Hc; auto ].
    cbn [forallb] in Hr. apply andb_true_iff in Hr as [Hr0 Hr].
    unfold update_step. cbn [fst snd].
    destruct (poll js evbuf) as [js1 [obs|e]] eqn:Hpoll; [ | discriminate ].
    destruct (apply obs c) as [c1|e] eqn:Happ; [ | discriminate ].
    destruct (apply_commands obs c c1) as [Hs1 Hc1]; [ | exact Happ | exact Hs | exact Hc | ].
    + intros v Hv.
      destruct (poll_axis_val _ _ _ _ _ Hpoll Hv) as (t & value & ty & n & Hun & ->).
      pose proof (unpack_IhBB_range _ _ _ _ _ Hun) as (_ & _ & Hval & _).
      rewrite (axis_value_range value Hval).
      unfold above_lowest in Hr0. rewrite Hun in Hr0. exact Hr0.
    + apply (IH c1 js1 Hs1 Hc1 Hr).
Qed.

Lemma commands_stay_in_range_witness :
  let s := update (JoystickController_default, ps4) [ly_full; triangle_down; options_down] in
  exists c' js', s = Ok (c', js') /\
    in_range (-1) 1 (angle c') = true /\ in_range (-1) 1 (throttle c') = true.
Proof.
  intros s.
  destruct s as [[c' js']|e] eqn:E; [ | vm_compute in E; discriminate ].
  exists c', js'. split; [ reflexivity | ].
  destruct (commands_stay_in_range ps4 [ly_full; triangle_down; options_down]
              JoystickController_default c' js') as (Ha & Ht & _);
    [ repeat split; reflexivity | split; reflexivity | reflexivity | exact E | ].
  split; assumption.
Defined.

(** The lowest value of the steering axis, at full scale, gives an angle
    below -1. *)
Example lowest_value_exceeds_range :
  exists c' js',
    update (JoystickController_default, ps4) [rx_lowest] = Ok (c', js') /\
    (angle c' <? -1)%float = true.
Proof.
  eexists _, (fst (poll ps4 rx_lowest)). split; [ vm_compute; reflexivity | ].
  reflexivity.
Qed.

(** ** Adjustments on the grid of hundredths *)

Lemma steps_checked : all_from 101 0 step_check = true.
Proof. vm_compute. reflexivity. Qed.

Lemma step_check_ok k :
  0 <= k <= 100 ->
  Py.round2 (Py.min 1 (hundredth false k + 0.05)%float) = hundredth false (Z.min (k + 5) 100) /\
  Py.round2 (Py.max 0 (hundredth false k - 0.05)%float) = hundredth false (Z.max (k - 5) 0) /\
  Py.round2 (Py.min 1 (hundredth false k + 0.01)%float) = hundredth false (Z.min (k + 1) 100) /\
  Py.round2 (Py.max 0 (hundredth false k - 0.01)%float) = hundredth false (Z.max (k - 1) 0) /\
  Py.round2 (Py.min 0 (neg_grid k + 0.05)%float) = neg_grid (Z.max (k - 5) 0) /\
  Py.round2 (Py.max (-1) (neg_grid k - 0.05)%float) = neg_grid (Z.min (k + 5) 100).
Proof.
  intros Hk.
  pose proof (all_from_spec _ _ _ steps_checked k ltac:(lia)) as H.
  unfold step_check in H.
  repeat match type of H with
    | (_ && _) = true => apply andb_true_iff in H as [H ?]
    end.
  repeat match goal with
    | E : PrimFloat.Leibniz.eqb _ _ = true |- _ => apply FloatAxioms.Leibniz.eqb_spec in E
    end.
  repeat split; assumption.
Qed.

(** What the body does on a press of one of the four adjusting buttons. *)
Lemma apply_r1 c :
  apply (button_changed "r1" 1) c
  = Ok (max_throttle_changed
          (set_max_throttle (Py.round2 (Py.min 1 (max_throttle c + 0.01)%float)) c)).
Proof. reflexivity. Qed.

Lemma apply_l1 c :
  apply (button_changed "l1" 1) c
  = Ok (max_throttle_changed
          (set_max_throttle (Py.round2 (Py.max 0 (max_throttle c - 0.01)%float)) c)).
Proof. reflexivity. Qed.

Lemma apply_r2 c :
  apply (button_changed "r2" 1) c
  = Ok (set_throttle_scale (Py.round2 (Py.min 0 (throttle_scale c + 0.05)%float)) c).
Proof. reflexivity. Qed.

Lemma apply_l2 c :
  apply (button_changed "l2" 1) c
  = Ok (set_throttle_scale (Py.round2 (Py.max (-1) (throttle_scale c - 0.05)%float)) c).
Proof. reflexivity. Qed.

Lemma max_throttle_changed_max c : max_throttle (max_throttle_changed c) = max_throttle c.
Proof.
  unfold max_throttle_changed, on_throttle_changes.
  destruct (constant_throttle c); [ | reflexivity ].
  cbn. destruct (auto_record_on_throttle c); reflexivity.
Qed.

(** The two command blocks leave the scales. *)
Lemma command_blocks_keep_scales obs c c1 :
  run_blocks obs [steering_moved; throttle_moved] c = Ok c1 ->
  steering_scale c1 = steering_scale c /\ throttle_scale c1 = throttle_scale c.
Proof.
  revert c c1.
  apply (run_blocks_rel (fun c c1 => steering_scale c1 = steering_scale c /\
                                     throttle_scale c1 = throttle_scale c)).
  - auto.
  - intros a b d [? ?] [? ?]. split; congruence.
  - each_block ltac:(intros c0 c1 Hblk; unfold_blocks; block_cases; goal_cases;
                     split; reflexivity).
Qed.

(** What the body does to the two d-pad scales on a move of a d-pad axis
    off its centre. *)
Lemma apply_dpadx v c :
  Py.ne v 0 = true ->
  exists c', apply (axis_moved "dpadx" v) c = Ok c' /\
    steering_scale c'
    = (if (0 <? v)%float
       then Py.round2 (Py.min 1 (steering_scale c + 0.05)%float)
       else Py.round2 (Py.max 0 (steering_scale c - 0.05)%float)).
Proof.
  intros Hv.
  destruct (apply_total (axis_moved "dpadx" v) c) as [c' Happ];
    [ right; eexists; reflexivity | ].
  exists c'. split; [ exact Happ | ].
  rewrite apply_axis_moved in Happ.
  change [steering_moved; throttle_moved; dpadx_moved; dpady_moved]
    with ([steering_moved; throttle_moved] ++ [dpadx_moved; dpady_moved]) in Happ.
  rewrite run_blocks_app in Happ.
  destruct (run_blocks _ [steering_moved; throttle_moved] c) as [c1|e] eqn:E1;
    cbn [bind] in Happ; [ | discriminate ].
  apply command_blocks_keep_scales in E1 as [Es _].
  rewrite !run_blocks_cons in Happ. unfold dpadx_moved in Happ at 1.
  rewrite axis_is_moved in Happ. cbn [axis_val axis_moved] in Happ.
  rewrite Hv in Happ. rewrite bool_decide_eq_true_2 in Happ by reflexivity.
  rewrite <- Es.
  destruct (0 <? v)%float; cbn [bind] in Happ; rewrite run_blocks_cons in Happ;
    unfold dpady_moved in Happ; rewrite axis_is_moved in Happ;
    rewrite bool_decide_eq_false_2 in Happ by discriminate;
    cbn [bind run_blocks fold_left] in Happ; injection Happ as <-; reflexivity.
Qed.

Lemma apply_dpady v c :
  Py.ne v 0 = true ->
  exists c', apply (axis_moved "dpady" v) c = Ok c' /\
    throttle_scale c'
    = (if (v <? 0)%float
       then Py.round2 (Py.max (-1) (throttle_scale c - 0.05)%float)
       else Py.round2 (Py.min 0 (throttle_scale c + 0.05)%float)).
Proof.
  intros Hv.
  destruct (apply_total (axis_moved "dpady" v) c) as [c' Happ];
    [ right; eexists; reflexivity | ].
  exists c'. split; [ exact Happ | ].
  rewrite apply_axis_moved in Happ.
  change [steering_moved; throttle_moved; dpadx_moved; dpady_moved]
    with ([steering_moved; throttle_moved] ++ [dpadx_moved; dpady_moved]) in Happ.
  rewrite run_blocks_app in Happ.
  destruct (run_blocks _ [steering_moved; throttle_moved] c) as [c1|e] eqn:E1;
    cbn [bind] in Happ; [ | discriminate ].
  apply command_blocks_keep_scales in E1 as [_ Et].
  rewrite !run_blocks_cons in Happ. unfold dpadx_moved in Happ at 1.
  rewrite axis_is_moved in Happ.
  rewrite bool_decide_eq_false_2 in Happ by discriminate.
  cbn [bind] in Happ. rewrite run_blocks_cons in Happ. unfold dpady_moved in Happ.
  rewrite axis_is_moved in Happ. cbn [axis_val axis_moved] in Happ.
  rewrite Hv in Happ. rewrite bool_decide_eq_true_2 in Happ by reflexivity.
  rewrite <- Et.
  destruct (v <? 0)%float; cbn [bind run_blocks fold_left] in Happ;
    injection Happ as <-; reflexivity.
Qed.

(** X15.  On the grid of hundredths the adjustments are exact, with no
    rounding error left: for [k] from 0 to 100, a press of 'r1' or 'l1'
    takes [max_throttle] from the double nearest [k/100] to the double
    nearest [(k+1)/100] or [(k-1)/100], clamped to [0, 1]; a press of 'r2'
    or 'l2', or a move of 'dpady' off its centre, takes [throttle_scale]
    from [-k/100] to [-(k-5)/100] or [-(k+5)/100], clamped to [-1, 0]; a
    move of 'dpadx' off its centre takes [steering_scale] from [k/100] to
    [(k+5)/100] or [(k-5)/100], clamped to [0, 1]. *)
Theorem adjustments_are_exact (c : JoystickController) (k : Z) :
  0 <= k <= 100 ->
  (max_throttle c = hundredth false k ->
   (exists c', apply (button_changed "r1" 1) c = Ok c' /\
               max_throttle c' = hundredth false (Z.min (k + 1) 100)) /\
   (exists c', apply (button_changed "l1" 1) c = Ok c' /\
               max_throttle c' = hundredth false (Z.max (k - 1) 0))) /\
  (throttle_scale c = neg_grid k ->
   (exists c', apply (button_changed "r2" 1) c = Ok c' /\
               throttle_scale c' = neg_grid (Z.max (k - 5) 0)) /\
   (exists c', apply (button_changed "l2" 1) c = Ok c' /\
               throttle_scale c' = neg_grid (Z.min (k + 5) 100)) /\
   (forall v, Py.ne v 0 = true ->
      exists c', apply (axis_moved "dpady" v) c = Ok c' /\
                 throttle_scale c'
                 = neg_grid (if (v <? 0)%float then Z.min (k + 5) 100
                             else Z.max (k - 5) 0))) /\
  (steering_scale c = hundredth false k ->
   forall v, Py.ne v 0 = true ->
     exists c', apply (axis_moved "dpadx" v) c = Ok c' /\
                steering_scale c'
                = hundredth false (if (0 <? v)%float then Z.min (k + 5) 100
                                   else Z.max (k - 5) 0)).
Proof.
  intros Hk.
  destruct (step_check_ok k Hk) as (S1 & S2 & S3 & S4 & S5 & S6).
  split; [ | split ].
  - intros Hm. split; eexists; (split; [ reflexivity | ]);
      rewrite max_throttle_changed_max; cbn [max_throttle set_max_throttle];
      rewrite Hm; assumption.
  - intros Ht. split; [ | split ].
    + eexists. split; [ reflexivity | ]. cbn [throttle_scale set_throttle_scale].
      rewrite Ht. exact S5.
    + eexists. split; [ reflexivity | ]. cbn [throttle_scale set_throttle_scale].
      rewrite Ht. exact S6.
    + intros v Hv. destruct (apply_dpady v c Hv) as (c' & Happ & Hc').
      exists c'. split; [ exact Happ | ]. rewrite Hc', Ht.
      destruct (v <? 0)%float; assumption.
  - intros Hs v Hv. destruct (apply_dpadx v c Hv) as (c' & Happ & Hc').
    exists c'. split; [ exact Happ | ]. rewrite Hc', Hs.
    destruct (0 <? v)%float; assumption.
Qed.

Lemma adjustments_are_exact_witness :
  (exists c', apply (button_changed "l1" 1) JoystickController_default = Ok c' /\
              max_throttle c' = 0.99%float) /\
  (exists c', apply (button_changed "r2" 1) JoystickController_default = Ok c' /\
              throttle_scale c' = (-0.95)%float) /\
  (exists c', apply (axis_moved "dpadx" (-1)) JoystickController_default = Ok c' /\
              steering_scale c' = 0.95%float).
Proof.
  destruct (adjustments_are_exact JoystickController_default 100 ltac:(lia))
    as (Hm & Ht & Hs).
  split; [ | split ].
  - destruct (Hm eq_refl) as [_ Hl1]. exact Hl1.
  - destruct (Ht eq_refl) as [Hr2 _]. exact Hr2.
  - exact (Hs eq_refl (-1)%float eq_refl).
Defined.

(** ** Waiting for the joystick *)

(** X16.  [update] waits until the device is there: while the controller
    is running, any number of failed attempts followed by a device that
    is present gives the joystick [init] builds from a fresh [Joystick]
    for that device -- nothing is kept from the failed attempts; attempts
    that all fail leave the loop waiting; and a controller that is not
    running makes no attempt and has no joystick. *)
Theorem wait_for_js_takes_first_present
    (c : JoystickController) (n : nat) (rep : DeviceReport) (rest : list Device) :
  (running c = true ->
   wait_for_js c (replicate n Absent ++ Present rep :: rest)
     = Some (Some (init Joystick_new rep)) /\
   wait_for_js c (replicate n Absent) = None) /\
  (running c = false ->
   wait_for_js c (replicate n Absent ++ Present rep :: rest) = Some None).
Proof.
  split.
  - intros Hrun. split.
    + induction n as [|n IH]; cbn [replicate app wait_for_js init_js];
        rewrite Hrun; [ reflexivity | exact IH ].
    + induction n as [|n IH]; cbn [replicate wait_for_js init_js];
        rewrite Hrun; [ reflexivity | exact IH ].
  - intros Hrun. destruct n; cbn [replicate app wait_for_js]; rewrite Hrun; reflexivity.
Qed.

Lemma wait_for_js_takes_first_present_witness :
  wait_for_js JoystickController_default [Absent; Absent; Present ps4_report; Absent]
    = Some (Some ps4) /\
  wait_for_js (shutdown JoystickController_default) [Absent; Present ps4_report]
    = Some None.
Proof.
  split.
  - apply (wait_for_js_takes_first_present JoystickController_default 2 ps4_report
             [Absent]). reflexivity.
  - apply (wait_for_js_takes_first_present (shutdown JoystickController_default) 1
             ps4_report []). reflexivity.
Defined.

(** ** Exceptions of the loop *)

(** X17.  [poll] writes the button cache before it looks up the axis: a
    record with both the button and the axis bit whose index is within
    the button table but beyond the axis table leaves the new state of
    the button in [button_states] and then raises IndexError. *)
Theorem poll_updates_button_before_raising
    (js : Joystick) (evbuf : list byte) (tval value typev number : Z) (btn : string) :
  unpack_IhBB evbuf = Ok (tval, value, typev, number) ->
  Z.land typev 0x80 = 0 -> Z.land typev 0x01 <> 0 -> Z.land typev 0x02 <> 0 ->
  button_map js !! Z.to_nat number = Some btn -> btn <> ""%string ->
  Z.of_nat (length (axis_map js)) <= number ->
  poll js evbuf =
    ({| axis_states := axis_states js;
        button_states := <[btn := value]> (button_states js);
        axis_map := axis_map js; button_map := button_map js |},
     Raise IndexError).
Proof.
  intros Hun H80 H01 H02 Hbtn Hne Hlen.
  pose proof (unpack_IhBB_range _ _ _ _ _ Hun) as (_ & _ & _ & _ & Hnum).
  unfold poll. destruct evbuf as [|b0 rest]; [ discriminate | ].
  rewrite Hun, H80. cbn [Z.eqb negb].
  unfold poll_button, list_index. apply Z.eqb_neq in H01. rewrite H01, Hbtn.
  rewrite (truthy_nonempty _ Hne).
  unfold poll_axis. cbn [axis_map]. apply Z.eqb_neq in H02. rewrite H02.
  rewrite list_index_out_of_range by lia. reflexivity.
Qed.

Lemma poll_updates_button_before_raising_witness :
  let evbuf := [x00; x00; x00; x00; x01; x00; x03; x09]%byte in
  snd (poll ps4 evbuf) = Raise IndexError /\
  button_states (fst (poll ps4 evbuf)) !! "options"%string = Some 1 /\
  button_states ps4 !! "options"%string = Some 0.
Proof.
  intros evbuf.
  rewrite (poll_updates_button_before_raising ps4 evbuf 0 1 0x03 9 "options");
    [ | reflexivity | reflexivity | vm_compute; discriminate
      | vm_compute; discriminate | vm_compute; reflexivity | discriminate
      | vm_compute; discriminate ].
  split; [ reflexivity | ]. split; [ apply lookup_insert_eq | vm_compute; reflexivity ].
Defined.

Lemma record_ok_ext js js' evbuf :
  axis_map js' = axis_map js -> button_map js' = button_map js ->
  record_ok js' evbuf = record_ok js evbuf.
Proof.
  intros Ha Hb. unfold record_ok, indices_in_tables. rewrite Ha, Hb. reflexivity.
Qed.

(** One iteration returns exactly on the reads that are [record_ok]. *)
Lemma update_step_returns js c evbuf :
  Forall (fun name => truthy name = true) (axis_map js) ->
  Forall (fun name => truthy name = true) (button_map js) ->
  (exists s', update_step (c, js) evbuf = Ok s') <-> record_ok js evbuf = true.
Proof.
  intros Tax Tbt. unfold record_ok.
  destruct evbuf as [|b0 rest].
  - split; [ reflexivity | ]. intros _. exists (c, js). reflexivity.
  - destruct (unpack_IhBB (b0 :: rest)) as [[[[tval value] typev] number]|e] eqn:Hun.
    + pose proof (step_outcome js c _ _ _ _ _ Tax Tbt Hun) as H.
      destruct (negb (Z.land typev 128 =? 0) || indices_in_tables js typev number).
      * split; [ reflexivity | ]. intros _. destruct H as (c' & js' & H).
        exists (c', js'). exact H.
      * rewrite H. split; [ intros [s' Hs]; discriminate | discriminate ].
    + split; [ | discriminate ]. intros [s' Hs]. exfalso. revert Hs.
      unfold update_step, poll. cbn [fst snd]. rewrite Hun. discriminate.
Qed.

Lemma update_returns js c reads :
  running c = true ->
  Forall (fun name => truthy name = true) (axis_map js) ->
  Forall (fun name => truthy name = true) (button_map js) ->
  (exists s', update (c, js) reads = Ok s') <-> forallb (record_ok js) reads = true.
Proof.
  revert c js. induction reads as [|evbuf reads IH]; intros c js Hrun Tax Tbt;
    cbn [update fst forallb].
  - split; [ reflexivity | ]. intros _. eexists. reflexivity.
  - rewrite Hrun. pose proof (update_step_returns js c evbuf Tax Tbt) as Hstep.
    destruct (update_step (c, js) evbuf) as [[c1 js1]|e] eqn:E.
    + assert (Hok : record_ok js evbuf = true) by (apply Hstep; eauto).
      rewrite Hok. cbn [andb].
      apply update_step_Ok in E as [-> (_ & _ & _ & _ & Hr)].
      pose proof (poll_keeps_maps js evbuf) as [Ha Hb].
      rewrite (IH c1 (fst (poll js evbuf))); [ | congruence | rewrite Ha; exact Tax
                                               | rewrite Hb; exact Tbt ].
      assert (Hext : forallb (record_ok (fst (poll js evbuf))) reads
                     = forallb (record_ok js) reads).
      { clear -Ha Hb. induction reads as [|r reads IHr]; [ reflexivity | ].
        cbn [forallb]. rewrite IHr, (record_ok_ext js _ r Ha Hb). reflexivity. }
      rewrite Hext. reflexivity.
    + split; [ intros [s' Hs]; discriminate | ].
      intros H. apply andb_true_iff in H as [H _].
      apply Hstep in H as [s' Hs]. discriminate.
Qed.

(** The loop with its sleeps, when it returns, returns the state of the
    loop without them. *)
Lemma update_loop_update sleep s reads s' :
  update_loop sleep s reads = Ok s' -> update s reads = Ok s'.
Proof.
  revert s. induction reads as [|evbuf reads IH]; intros s; cbn [update_loop update].
  - auto.
  - destruct (running (fst s)); [ | auto ].
    unfold update_iteration.
    destruct (update_step s evbuf) as [s1|e]; cbn [bind]; [ | discriminate ].
    destruct (sleep (poll_delay (fst s1))) as [u|e]; cbn [bind]; [ | discriminate ].
    apply IH.
Qed.

(** With a delay the sleep accepts, the two loops are the same. *)
Lemma update_loop_sleep_returns sleep c js reads :
  sleep (poll_delay c) = Ok tt ->
  update_loop sleep (c, js) reads = update (c, js) reads.
Proof.
  revert c js. induction reads as [|evbuf reads IH]; intros c js Hs;
    cbn [update_loop update fst]; [ reflexivity | ].
  destruct (running c); [ | reflexivity ].
  unfold update_iteration.
  destruct (update_step (c, js) evbuf) as [[c1 js1]|e] eqn:E; cbn [bind fst];
    [ | reflexivity ].
  apply update_step_Ok in E as [_ (_ & _ & _ & Hd & _)].
  rewrite Hd, Hs. cbn [bind]. apply IH. rewrite Hd. exact Hs.
Qed.

(** With a delay the sleep refuses, the first iteration ends the loop. *)
Lemma update_loop_sleep_raises sleep c js evbuf reads e :
  running c = true -> sleep (poll_delay c) = Raise e ->
  exists e', update_loop sleep (c, js) (evbuf :: reads) = Raise e'.
Proof.
  intros Hrun Hs. cbn [update_loop fst]. rewrite Hrun. unfold update_iteration.
  destruct (update_step (c, js) evbuf) as [[c1 js1]|e1] eqn:E; cbn [bind fst].
  - apply update_step_Ok in E as [_ (_ & _ & _ & Hd & _)].
    rewrite Hd, Hs. cbn [bind]. eauto.
  - eauto.
Qed.

(** X18.  On a joystick set up by [init], the running loop handles a
    sequence of reads without exception exactly when each read is empty or
    a whole 8-byte record that is an initialization event or uses indices
    within the tables [init] built, and [time.sleep] accepts
    [self.poll_delay] (or there is nothing to read); any other read, or a
    delay the sleep refuses, ends the loop with an exception.  When the
    loop returns, its state is the one computed without the sleeps. *)
Theorem loop_returns_iff_records_ok
    (sleep : float -> result unit)
    (rep : DeviceReport) (c : JoystickController) (reads : list (list byte)) :
  running c = true ->
  let js := init Joystick_new rep in
  ((exists s', update_loop sleep (c, js) reads = Ok s') <->
   forallb (record_ok js) reads = true /\
   (reads = [] \/ sleep (poll_delay c) = Ok tt)) /\
  (forall s', update_loop sleep (c, js) reads = Ok s' -> update (c, js) reads = Ok s').
Proof.
  intros Hrun js. destruct (init_names_truthy rep) as [Tax Tbt].
  pose proof (update_returns js c reads Hrun Tax Tbt) as Hret.
  split; [ | intros s'; apply update_loop_update ].
  split.
  - intros [s' Hs']. split.
    + apply Hret. exists s'. apply (update_loop_update sleep), Hs'.
    + destruct reads as [|evbuf reads]; [ left; reflexivity | right ].
      destruct (sleep (poll_delay c)) as [[]|e] eqn:Hsl; [ reflexivity | ].
      destruct (update_loop_sleep_raises sleep c js evbuf reads e Hrun Hsl) as [e' He'].
      rewrite He' in Hs'. discriminate.
  - intros [Hok [->|Hsl]].
    + exists (c, js). reflexivity.
    + rewrite (update_loop_sleep_returns sleep c js reads Hsl). apply Hret, Hok.
Qed.

Lemma loop_returns_iff_records_ok_witness :
  let late := JoystickController_new (-1) 1 "rx" "ly" 1 (-1) true in
  (exists s', update_loop sleep_from_zero (JoystickController_default, ps4)
                [ly_full; []; triangle_down; rx_lowest] = Ok s') /\
  ~ (exists s', update_loop sleep_from_zero (JoystickController_default, ps4)
                  [ly_full; button_200_down] = Ok s') /\
  ~ (exists s', update_loop sleep_from_zero (late, ps4) [ly_full] = Ok s').
Proof.
  intros late. split; [ | split ].
  - apply (proj1 (loop_returns_iff_records_ok sleep_from_zero ps4_report
                    JoystickController_default
                    [ly_full; []; triangle_down; rx_lowest] eq_refl)).
    split; [ vm_compute; reflexivity | right; reflexivity ].
  - intros H.
    apply (proj1 (loop_returns_iff_records_ok sleep_from_zero ps4_report
                    JoystickController_default [ly_full; button_200_down] eq_refl))
      in H as [H _].
    vm_compute in H. discriminate.
  - intros H.
    apply (proj1 (loop_returns_iff_records_ok sleep_from_zero ps4_report
                    late [ly_full] eq_refl))
      in H as [_ [H|H]]; [ discriminate | ].
    vm_compute in H. discriminate.
Defined.
